(** * Mission Control: gateway session bridge, dashboard side

    A shallow embedding of the TypeScript sources of the dashboard
    (gateway sessions panel, session dialogs, template sync dialog,
    agent profile normalisation) and of the bridge operations the
    dashboard consumes.

    JavaScript strings are sequences of UTF-16 code units; they are
    modelled as [list N].  Optional object fields are [option]. *)

From Stdlib Require Import NArith ZArith List String Ascii Bool Sorted Lia.
From stdpp Require Import base option list gmap.
Import ListNotations.

Local Open Scope N_scope.

(** ** JavaScript strings and the built-ins the sources call *)

Module JS.

Definition jsstring : Type := list N.

(** An ASCII literal of the source as a sequence of code units. *)
Definition lit (s : string) : jsstring :=
  List.map N_of_ascii (list_ascii_of_string s).

(** ECMAScript [WhiteSpace] and [LineTerminator] code points, the ones
    [String.prototype.trim] strips. *)
Definition is_ws (c : N) : bool :=
  (c =? 9) || (c =? 10) || (c =? 11) || (c =? 12) || (c =? 13) ||
  (c =? 32) || (c =? 160) || (c =? 5760) ||
  ((8192 <=? c) && (c <=? 8202)) ||
  (c =? 8232) || (c =? 8233) || (c =? 8239) || (c =? 8287) ||
  (c =? 12288) || (c =? 65279).

Fixpoint trimStart (s : jsstring) : jsstring :=
  match s with
  | [] => []
  | c :: r => if is_ws c then trimStart r else s
  end.

Definition trimEnd (s : jsstring) : jsstring := rev (trimStart (rev s)).

(** [s.trim()] *)
Definition trim (s : jsstring) : jsstring := trimEnd (trimStart s).

(** Truthiness of a string: every string but the empty one. *)
Definition truthy (s : jsstring) : bool :=
  match s with [] => false | _ :: _ => true end.

(** Truthiness of an optional string field ([undefined] is falsy). *)
Definition truthy_opt (o : option jsstring) : bool :=
  match o with Some s => truthy s | None => false end.

Definition cons_head (c : N) (l : list jsstring) : list jsstring :=
  match l with
  | h :: t => (c :: h) :: t
  | [] => [[c]]
  end.

(** [s.split(/\r?\n/)].  The pattern matches a line feed, or a carriage
    return immediately followed by a line feed; it never matches the
    empty string, so the split scans left to right, closes the current
    piece at every match and always yields at least one piece. *)
Fixpoint split_lines (s : jsstring) : list jsstring :=
  match s with
  | [] => [[]]
  | c :: rest =>
      match c =? 13, rest with
      | true, d :: rest' =>
          if d =? 10 then [] :: split_lines rest'
          else cons_head c (split_lines rest)
      | _, _ =>
          if c =? 10 then [] :: split_lines rest
          else cons_head c (split_lines rest)
      end
  end.

(** [l.join(sep)] *)
Fixpoint join (sep : jsstring) (l : list jsstring) : jsstring :=
  match l with
  | [] => []
  | [x] => x
  | x :: r => x ++ sep ++ join sep r
  end.

(** A line ends with a carriage return. *)
Fixpoint ends_cr (s : jsstring) : bool :=
  match s with
  | [] => false
  | [c] => c =? 13
  | _ :: r => ends_cr r
  end.

Lemma trimStart_idem s : trimStart (trimStart s) = trimStart s.
Proof.
  induction s as [|c r IH]; simpl; [reflexivity|].
  destruct (is_ws c) eqn:E; [exact IH|]. simpl. now rewrite E.
Qed.

Lemma trimStart_head s :
  trimStart s = [] \/ exists c r, trimStart s = c :: r /\ is_ws c = false.
Proof.
  induction s as [|c r IH]; simpl; [now left|].
  destruct (is_ws c) eqn:E; [exact IH|]. right. now exists c, r.
Qed.

Lemma trimStart_snoc s c :
  is_ws c = false -> trimStart (s ++ [c]) = trimStart s ++ [c].
Proof.
  intros Hc. induction s as [|d r IH]; simpl.
  - now rewrite Hc.
  - destruct (is_ws d); [exact IH|reflexivity].
Qed.

Lemma trimStart_In s c : In c (trimStart s) -> In c s.
Proof.
  induction s as [|d r IH]; simpl; [tauto|].
  destruct (is_ws d); simpl; tauto.
Qed.

Lemma trimEnd_idem s : trimEnd (trimEnd s) = trimEnd s.
Proof.
  unfold trimEnd. now rewrite rev_involutive, trimStart_idem.
Qed.

Lemma trimEnd_cons c s :
  is_ws c = false -> trimEnd (c :: s) = c :: trimEnd s.
Proof.
  intros Hc. unfold trimEnd. simpl.
  rewrite trimStart_snoc by exact Hc.
  now rewrite rev_app_distr.
Qed.

Lemma trimEnd_In s c : In c (trimEnd s) -> In c s.
Proof.
  unfold trimEnd. intros H.
  apply in_rev in H. apply trimStart_In in H. now apply in_rev.
Qed.

Lemma trim_In s c : In c (trim s) -> In c s.
Proof.
  unfold trim. intros H. now apply trimStart_In, trimEnd_In.
Qed.

Lemma trim_idem s : trim (trim s) = trim s.
Proof.
  unfold trim.
  destruct (trimStart_head s) as [E | (c & r & E & Hc)]; rewrite E.
  - reflexivity.
  - rewrite (trimEnd_cons c r Hc). simpl. rewrite Hc.
    rewrite <- (trimEnd_cons c r Hc). apply trimEnd_idem.
Qed.

Lemma ends_cr_snoc s c : ends_cr (s ++ [c]) = (c =? 13).
Proof.
  induction s as [|d r IH]; [reflexivity|].
  simpl. destruct (r ++ [c]) eqn:E; [|exact IH].
  destruct r; discriminate.
Qed.

Lemma trimEnd_ends_cr s : ends_cr (trimEnd s) = false.
Proof.
  unfold trimEnd.
  destruct (trimStart_head (rev s)) as [E | (c & r & E & Hc)]; rewrite E.
  - reflexivity.
  - simpl. rewrite ends_cr_snoc.
    destruct (c =? 13) eqn:E13; [|reflexivity].
    apply N.eqb_eq in E13. subst c. discriminate.
Qed.

Lemma trim_ends_cr s : ends_cr (trim s) = false.
Proof. apply trimEnd_ends_cr. Qed.

(** The first code unit of a trimmed string is not white space. *)
Lemma trim_head s c r : trim s = c :: r -> is_ws c = false.
Proof.
  unfold trim.
  destruct (trimStart_head s) as [E | (d & t & E & Hd)]; rewrite E.
  - discriminate.
  - rewrite (trimEnd_cons d t Hd). now intros [= <- _].
Qed.

(** The last code unit of a trimmed string is not white space. *)
Lemma trim_last s r c : trim s = r ++ [c] -> is_ws c = false.
Proof.
  unfold trim, trimEnd. intros H.
  apply (f_equal (@rev N)) in H.
  rewrite rev_involutive, rev_app_distr in H. simpl in H.
  destruct (trimStart_head (rev (trimStart s))) as [E | (d & t & E & Hd)];
    rewrite E in H; [discriminate|].
  now injection H as <- _.
Qed.

Lemma trim_empty_iff_all_ws s :
  trim s = [] <-> Forall (fun c => is_ws c = true) s.
Proof.
  unfold trim. split.
  - intros H. induction s as [|c r IH]; [constructor|].
    simpl in H. destruct (is_ws c) eqn:E.
    + constructor; auto.
    + rewrite (trimEnd_cons c r E) in H. discriminate.
  - induction 1 as [|c r Hc _ IH]; [reflexivity|].
    simpl. now rewrite Hc.
Qed.






(** A string without white space is its own trim. *)
Lemma trim_noop s :
  Forall (fun c => is_ws c = false) s -> trim s = s.
Proof.
  intros H. unfold trim, trimEnd.
  assert (Hstart : forall x, Forall (fun c => is_ws c = false) x ->
            trimStart x = x).
  { intros x Hx. destruct Hx as [|c r Hc _]; [reflexivity|].
    simpl. now rewrite Hc. }
  rewrite (Hstart s H).
  rewrite (Hstart (rev s)) by now apply List.Forall_rev.
  apply rev_involutive.
Qed.

End JS.

(** ** Agent identity profile: protocol blocks
    (new-agent page and edit-agent page, which define the same function) *)

Module AgentProfile.
Import JS.

Definition LF : N := 10.
Definition CR : N := 13.

(** [value.split(/\r?\n/).map((line) => line.trim()).filter(Boolean).join("\n")] *)
Definition normalizeProtocolBlock (value : jsstring) : jsstring :=
  join [LF] (List.filter truthy (List.map trim (split_lines value))).

(** The lines the function keeps: the input's non-blank lines, trimmed. *)
Definition kept_lines (value : jsstring) : list jsstring :=
  List.filter truthy (List.map trim (split_lines value)).

(** A blank line: white space only. *)
Definition blank (l : jsstring) : bool := forallb is_ws l.

(** What every kept line satisfies. *)
Definition clean_line (l : jsstring) : Prop :=
  l <> [] /\ trim l = l /\ ~ In LF l /\ ends_cr l = false.

Lemma cons_head_no_lf c l :
  c <> LF -> Forall (fun p => ~ In LF p) l ->
  Forall (fun p => ~ In LF p) (cons_head c l).
Proof.
  intros Hc Hl. destruct l as [|h t]; simpl.
  - constructor; [|constructor]. simpl. intros [E | []]. now apply Hc.
  - inversion Hl as [|? ? Hh Ht]; subst. constructor; [|exact Ht].
    simpl. intros [E | E]; [now apply Hc | now apply Hh].
Qed.

(** No piece of the split contains a line feed. *)
Lemma split_lines_no_lf s : Forall (fun p => ~ In LF p) (split_lines s).
Proof.
  assert (Hgen : forall n s, (length s <= n)%nat ->
            Forall (fun p => ~ In LF p) (split_lines s)).
  { clear s. induction n as [|n IH]; intros s Hn.
    - destruct s; [|simpl in Hn; lia].
      constructor; [simpl; tauto | constructor].
    - destruct s as [|c rest]; [constructor; [simpl; tauto | constructor]|].
      simpl in Hn. simpl.
      assert (Hrest : Forall (fun p => ~ In LF p) (split_lines rest))
        by (apply IH; lia).
      destruct (c =? 13) eqn:E13.
      + apply N.eqb_eq in E13. subst c.
        destruct rest as [|d rest'].
        * simpl. constructor; [|constructor]. simpl. intros [E | []].
          discriminate.
        * destruct (d =? 10) eqn:E10.
          -- constructor; [simpl; tauto|]. apply IH. simpl in Hn. lia.
          -- apply cons_head_no_lf; [discriminate | exact Hrest].
      + assert (Hdef : Forall (fun p => ~ In LF p)
                  (if c =? 10 then [] :: split_lines rest
                   else cons_head c (split_lines rest))).
        { destruct (c =? 10) eqn:E10.
          - constructor; [simpl; tauto | exact Hrest].
          - apply cons_head_no_lf; [|exact Hrest].
            apply N.eqb_neq in E10. exact E10. }
        destruct rest; exact Hdef. }
  apply (Hgen (length s)). lia.
Qed.

(** A string without line feed is a single piece. *)
Lemma split_lines_single l : ~ In LF l -> split_lines l = [l].
Proof.
  induction l as [|c r IH]; intros Hl; [reflexivity|].
  assert (Hc : (c =? 10) = false) by (apply N.eqb_neq; intros ->; apply Hl; now left).
  assert (Hr : ~ In LF r) by (intros H; apply Hl; now right).
  specialize (IH Hr). simpl.
  destruct (c =? 13).
  - destruct r as [|d r']; [now rewrite Hc|].
    assert (Hd : (d =? 10) = false)
      by (apply N.eqb_neq; intros ->; apply Hr; now left).
    rewrite Hd, IH. reflexivity.
  - rewrite Hc, IH. now destruct r.
Qed.

(** A code unit that starts no line break stays in the current piece. *)
Lemma split_lines_keep c rest :
  (c =? 10) = false ->
  match rest with d :: _ => (c =? 13) && (d =? 10) | [] => false end = false ->
  split_lines (c :: rest) = cons_head c (split_lines rest).
Proof.
  intros Hc Hcr. simpl.
  destruct (c =? 13), rest as [|d rest']; rewrite ?Hc; try reflexivity.
  simpl in Hcr. now rewrite Hcr.
Qed.

(** A line followed by a line feed is split off whole, provided the line
    holds no line feed and does not end with a carriage return. *)
Lemma split_lines_app_lf l s :
  ~ In LF l -> ends_cr l = false ->
  split_lines (l ++ LF :: s) = l :: split_lines s.
Proof.
  induction l as [|c r IH]; intros Hl He; [reflexivity|].
  assert (Hc : (c =? 10) = false) by (apply N.eqb_neq; intros ->; apply Hl; now left).
  assert (Hr : ~ In LF r) by (intros H; apply Hl; now right).
  rewrite <- app_comm_cons, split_lines_keep; [|exact Hc|].
  - rewrite IH; [reflexivity | exact Hr |].
    destruct r; [reflexivity | exact He].
  - destruct r as [|d r']; simpl.
    + simpl in He. rewrite He. reflexivity.
    + assert (Hd : (d =? 10) = false)
        by (apply N.eqb_neq; intros ->; apply Hr; now left).
      rewrite Hd. apply andb_false_r.
Qed.

Lemma split_lines_join (L : list jsstring) :
  L <> [] ->
  Forall (fun l => ~ In LF l /\ ends_cr l = false) L ->
  split_lines (join [LF] L) = L.
Proof.
  induction L as [|x r IH]; intros Hne HL; [congruence|].
  inversion HL as [|? ? [Hx1 Hx2] Hr]; subst.
  destruct r as [|y r'].
  - simpl. now apply split_lines_single.
  - change (join [LF] (x :: y :: r')) with (x ++ LF :: join [LF] (y :: r')).
    rewrite split_lines_app_lf by assumption.
    f_equal. apply IH; [discriminate | exact Hr].
Qed.

Lemma kept_lines_clean value : Forall clean_line (kept_lines value).
Proof.
  unfold kept_lines. apply List.Forall_forall. intros l Hl.
  apply filter_In in Hl. destruct Hl as [Hin Ht].
  apply in_map_iff in Hin. destruct Hin as (x & <- & Hx).
  pose proof (split_lines_no_lf value) as Hno.
  rewrite List.Forall_forall in Hno. specialize (Hno x Hx).
  repeat split.
  - intros E. rewrite E in Ht. discriminate.
  - apply trim_idem.
  - intros H. apply Hno. now apply trim_In.
  - apply trim_ends_cr.
Qed.

Lemma map_trim_clean (L : list jsstring) :
  Forall clean_line L -> List.map trim L = L.
Proof.
  induction 1 as [|l r (_ & Hl & _) _ IH]; [reflexivity|].
  simpl. now rewrite Hl, IH.
Qed.

Lemma filter_truthy_clean (L : list jsstring) :
  Forall clean_line L -> List.filter truthy L = L.
Proof.
  induction 1 as [|l r (Hl & _) _ IH]; [reflexivity|].
  simpl. rewrite IH. destruct l; [congruence | reflexivity].
Qed.

(** Reading the output back line by line gives the kept lines. *)
Lemma split_lines_normalize value :
  kept_lines value <> [] ->
  split_lines (normalizeProtocolBlock value) = kept_lines value.
Proof.
  intros Hne. unfold normalizeProtocolBlock. fold (kept_lines value).
  apply split_lines_join; [exact Hne|].
  eapply List.Forall_impl; [|apply kept_lines_clean].
  intros l (_ & _ & H1 & H2). now split.
Qed.

Lemma normalizeProtocolBlock_idem value :
  normalizeProtocolBlock (normalizeProtocolBlock value) =
  normalizeProtocolBlock value.
Proof.
  destruct (kept_lines value) as [|l r] eqn:E.
  - unfold normalizeProtocolBlock. fold (kept_lines value). rewrite E.
    reflexivity.
  - assert (Hne : kept_lines value <> []) by (rewrite E; discriminate).
    unfold normalizeProtocolBlock at 1.
    rewrite (split_lines_normalize value Hne).
    rewrite (map_trim_clean _ (kept_lines_clean value)).
    rewrite (filter_truthy_clean _ (kept_lines_clean value)).
    reflexivity.
Qed.

(** Dropping the empty strings after trimming is dropping the blank
    lines before trimming. *)
Lemma truthy_trim l : truthy (trim l) = negb (blank l).
Proof.
  unfold blank. destruct (trim l) as [|c r] eqn:E; simpl.
  - apply trim_empty_iff_all_ws in E.
    symmetry. apply negb_false_iff, forallb_forall.
    rewrite List.Forall_forall in E. exact E.
  - symmetry. apply negb_true_iff.
    destruct (forallb is_ws l) eqn:F; [|reflexivity].
    assert (H : trim l = []).
    { apply trim_empty_iff_all_ws, List.Forall_forall.
      rewrite forallb_forall in F. exact F. }
    congruence.
Qed.

Lemma kept_lines_nonblank value :
  kept_lines value =
  List.map trim (List.filter (fun l => negb (blank l)) (split_lines value)).
Proof.
  unfold kept_lines.
  induction (split_lines value) as [|l r IH]; [reflexivity|].
  simpl. rewrite truthy_trim.
  destruct (negb (blank l)); simpl; now rewrite IH.
Qed.

Example normalizeProtocolBlock_crlf :
  normalizeProtocolBlock
    (lit "  step one  " ++ [CR; LF; CR; LF; 9] ++ lit "step two" ++ [LF; 32; LF])
  = lit "step one" ++ [LF] ++ lit "step two".
Proof. vm_compute. reflexivity. Qed.

Example normalizeProtocolBlock_blank :
  normalizeProtocolBlock [32; LF; CR; LF; 9] = [].
Proof. vm_compute. reflexivity. Qed.

(** C10, as stated, fails on its side remark "no carriage returns": a
    carriage return that is not followed by a line feed is no line break
    for [split], and inside a line [trim] leaves it alone.  Here the
    input is [a], carriage return, [b]. *)
Lemma normalizeProtocolBlock_keeps_inner_cr :
  normalizeProtocolBlock [97; CR; 98] = [97; CR; 98] /\
  ~ (forall value, ~ In CR (normalizeProtocolBlock value)).
Proof.
  assert (E : normalizeProtocolBlock [97; CR; 98] = [97; CR; 98])
    by (vm_compute; reflexivity).
  split; [exact E|].
  intros H. apply (H [97; CR; 98]). rewrite E. right. now left.
Qed.

(** C10 (amended): [normalizeProtocolBlock] is idempotent, and its
    output is the input's non-blank lines (the pieces between the line
    breaks LF and CR LF), each trimmed of surrounding white space and
    joined by single line feeds.  Read back line by line, the output
    gives exactly those lines: none is empty, none has leading or
    trailing white space, none holds a line feed and none ends with a
    carriage return (a carriage return strictly inside a line is
    kept).  When every input line is blank the output is empty. *)
Theorem normalizeProtocolBlock_normal_form (value : jsstring) :
  normalizeProtocolBlock (normalizeProtocolBlock value)
    = normalizeProtocolBlock value
  /\ normalizeProtocolBlock value =
       join [LF]
         (List.map trim
            (List.filter (fun l => negb (blank l)) (split_lines value)))
  /\ (kept_lines value <> [] ->
       split_lines (normalizeProtocolBlock value) = kept_lines value)
  /\ (kept_lines value = [] -> normalizeProtocolBlock value = [])
  /\ Forall (fun l => l <> [] /\ trim l = l /\ ~ In LF l /\ ends_cr l = false
                      /\ (forall c r, l = c :: r -> is_ws c = false)
                      /\ (forall r c, l = r ++ [c] -> is_ws c = false))
       (kept_lines value).
Proof.
  split; [apply normalizeProtocolBlock_idem|].
  split.
  { rewrite <- kept_lines_nonblank. reflexivity. }
  split; [apply split_lines_normalize|].
  split.
  { intros E. unfold normalizeProtocolBlock. fold (kept_lines value).
    now rewrite E. }
  eapply List.Forall_impl; [|apply kept_lines_clean].
  intros l (H1 & H2 & H3 & H4). repeat split; try assumption.
  - intros c r E. apply (trim_head l c r). now rewrite H2.
  - intros r c E. apply (trim_last l r c). now rewrite H2.
Qed.

End AgentProfile.

(** ** Gateway sessions panel (GatewaySessionsPanel.tsx) *)

Module GatewaySessionsPanel.
Import JS.

(** [interface SessionInfo]: every named field is an optional string. *)
Record SessionInfo := {
  session_id : option jsstring;
  id : option jsstring;
  status : option jsstring;
  last_activity : option jsstring;
  agent_id : option jsstring
}.

(** [a || b] on optional strings: [a] when it is truthy, else [b]. *)
Definition lor_opt (a b : option jsstring) : option jsstring :=
  if truthy_opt a then a else b.

(** [a || "literal"]: the result is a string. *)
Definition lor_default (a : option jsstring) (b : jsstring) : jsstring :=
  match a with
  | Some s => if truthy s then s else b
  | None => b
  end.

(** [return session.session_id || session.id || "unknown";] *)
Definition getSessionId (session : SessionInfo) : jsstring :=
  lor_default (lor_opt (session_id session) (id session)) (lit "unknown").

(** A payload with both keys, the preferred one empty. *)
Definition empty_session_id_payload : SessionInfo :=
  {| session_id := Some []; id := Some (lit "legacy-7");
     status := None; last_activity := None; agent_id := None |}.

Lemma getSessionId_session_id s v :
  session_id s = Some v -> v <> [] -> getSessionId s = v.
Proof.
  intros E Hv. unfold getSessionId, lor_opt. rewrite E. simpl.
  destruct v; [congruence | reflexivity].
Qed.

Lemma getSessionId_fallback s :
  truthy_opt (session_id s) = false ->
  getSessionId s = lor_default (id s) (lit "unknown").
Proof.
  intros E. unfold getSessionId, lor_opt. now rewrite E.
Qed.

Lemma getSessionId_nonempty s : getSessionId s <> [].
Proof.
  unfold getSessionId, lor_opt, lor_default.
  destruct (session_id s) as [[|c r]|], (id s) as [[|d t]|]; simpl;
    discriminate.
Qed.

Example getSessionId_both :
  getSessionId {| session_id := Some (lit "sess-1"); id := Some (lit "legacy-7");
                  status := None; last_activity := None; agent_id := None |}
  = lit "sess-1".
Proof. reflexivity. Qed.

Example getSessionId_legacy_only :
  getSessionId {| session_id := None; id := Some (lit "legacy-7");
                  status := None; last_activity := None; agent_id := None |}
  = lit "legacy-7".
Proof. reflexivity. Qed.

(** C5, as stated, fails for a payload that carries an empty
    [session_id]: the resolved identifier is not that value, the [id]
    field is used although [session_id] is present. *)
Lemma getSessionId_empty_session_id_not_preferred :
  session_id empty_session_id_payload = Some [] /\
  getSessionId empty_session_id_payload = lit "legacy-7" /\
  ~ (forall s v, session_id s = Some v -> getSessionId s = v).
Proof.
  split; [reflexivity|]. split; [reflexivity|].
  intros H. specialize (H empty_session_id_payload [] eq_refl).
  discriminate H.
Qed.

(** C5 (amended): the session id is resolved from [session_id] or the
    legacy [id], with [session_id] preferred: whenever a session carries
    a non-empty [session_id], that value is the resolved identifier
    whatever [id] holds, and the [id] field is consulted only when
    [session_id] is absent or empty. *)
Theorem getSessionId_prefers_session_id (s : SessionInfo) :
  (forall v, session_id s = Some v -> v <> [] -> getSessionId s = v)
  /\ (forall s', session_id s' = session_id s ->
        truthy_opt (session_id s) = true -> getSessionId s' = getSessionId s)
  /\ (forall w, truthy_opt (session_id s) = false ->
        id s = Some w -> w <> [] -> getSessionId s = w).
Proof.
  split; [intros v; apply getSessionId_session_id|].
  split.
  - intros s' E Ht. unfold getSessionId, lor_opt. rewrite E, Ht. reflexivity.
  - intros w Hs Hi Hw. rewrite (getSessionId_fallback s Hs), Hi. simpl.
    destruct w; [congruence | reflexivity].
Qed.

(** C9: [getSessionId] always returns a non-empty identifier; when both
    [session_id] and [id] are missing or empty it is the literal
    ["unknown"]; an empty [session_id] counts as absent, so the result
    is then what the [id] field alone gives. *)
Theorem getSessionId_never_empty (s : SessionInfo) :
  getSessionId s <> []
  /\ (truthy_opt (session_id s) = false -> truthy_opt (id s) = false ->
      getSessionId s = lit "unknown")
  /\ (session_id s = Some [] ->
      getSessionId s =
      getSessionId {| session_id := None; id := id s; status := status s;
                      last_activity := last_activity s;
                      agent_id := agent_id s |})
  /\ (forall w, session_id s = Some [] -> id s = Some w -> w <> [] ->
      getSessionId s = w).
Proof.
  split; [apply getSessionId_nonempty|].
  split.
  { intros Hs Hi. rewrite (getSessionId_fallback s Hs).
    unfold lor_default. destruct (id s) as [[|c r]|]; simpl in *;
      reflexivity || discriminate. }
  split.
  { intros E. unfold getSessionId, lor_opt. rewrite E. reflexivity. }
  intros w E Hi Hw.
  rewrite getSessionId_fallback by (rewrite E; reflexivity).
  rewrite Hi. simpl. destruct w; [congruence | reflexivity].
Qed.

End GatewaySessionsPanel.

(** ** Send-message dialog (SendMessageDialog.tsx) *)

Module SendMessageDialog.
Import JS.

(** The three [useState] cells of the dialog. *)
Record State := {
  content : jsstring;
  success : bool;
  error : option jsstring
}.

(** The argument of [sendMutation.mutate]: the request handed to the
    generated client, which posts it to the session's message endpoint. *)
Record MutateArgs := {
  sessionId : jsstring;
  data_content : jsstring
}.

Definition initial : State :=
  {| content := []; success := false; error := None |}.

(** [handleSend]: the new state, and the request when one is sent. *)
Definition handleSend (sid : jsstring) (st : State) : State * option MutateArgs :=
  if negb (truthy (trim (content st))) then
    ({| content := content st; success := success st;
        error := Some (lit "Message content is required.") |}, None)
  else
    ({| content := content st; success := false; error := None |},
     Some {| sessionId := sid; data_content := trim (content st) |}).

(** [onChange={(e) => setContent(e.target.value)}] *)
Definition setContent (v : jsstring) (st : State) : State :=
  {| content := v; success := success st; error := error st |}.

Lemma handleSend_blank sid st :
  trim (content st) = [] ->
  snd (handleSend sid st) = None /\
  error (fst (handleSend sid st)) = Some (lit "Message content is required.").
Proof.
  intros E. unfold handleSend. rewrite E. simpl. split; reflexivity.
Qed.

Lemma handleSend_sends sid st :
  trim (content st) <> [] ->
  snd (handleSend sid st) =
    Some {| sessionId := sid; data_content := trim (content st) |} /\
  error (fst (handleSend sid st)) = None.
Proof.
  intros E. unfold handleSend.
  destruct (trim (content st)) as [|c r]; [congruence|].
  simpl. split; reflexivity.
Qed.

(** C2: sending fails validation, and nothing is handed to the client,
    exactly when the content is empty after trimming (that is, when it
    is made of white space only), as for the empty string and for three
    spaces; otherwise the trimmed content is what is sent: two spaces,
    [hello], two spaces delivers [hello]. *)
Theorem handleSend_validates_and_trims (sid : jsstring) (st : State) :
  (trim (content st) = [] ->
     snd (handleSend sid st) = None /\
     error (fst (handleSend sid st)) = Some (lit "Message content is required."))
  /\ (trim (content st) <> [] ->
     snd (handleSend sid st) =
       Some {| sessionId := sid; data_content := trim (content st) |} /\
     error (fst (handleSend sid st)) = None)
  /\ (snd (handleSend sid st) = None <->
      Forall (fun c => is_ws c = true) (content st))
  /\ snd (handleSend sid (setContent [] st)) = None
  /\ snd (handleSend sid (setContent (lit "   ") st)) = None
  /\ snd (handleSend sid (setContent (lit "  hello  ") st)) =
       Some {| sessionId := sid; data_content := lit "hello" |}.
Proof.
  split; [apply handleSend_blank|].
  split; [apply handleSend_sends|].
  split.
  { rewrite <- trim_empty_iff_all_ws. split.
    - intros H. destruct (trim (content st)) as [|c r] eqn:E; [reflexivity|].
      assert (Hne : trim (content st) <> []) by (rewrite E; discriminate).
      destruct (handleSend_sends sid st Hne) as [H1 _]. congruence.
    - intros E. now apply handleSend_blank. }
  repeat split.
Qed.

End SendMessageDialog.

(** ** Template sync dialog (TemplateSyncDialog.tsx) *)

Module TemplateSyncDialog.
Import JS.

(** One entry of [SyncResult.errors]. *)
Record SyncErrorEntry := {
  agent_id : jsstring;
  error_text : jsstring
}.

(** [interface SyncResult]; [errors] is an optional field. *)
Record SyncResult := {
  agents_updated : Z;
  agents_skipped : Z;
  main_updated : bool;
  errors : option (list SyncErrorEntry)
}.

(** The response of the generated client: an HTTP status and a body. *)
Record Response := {
  resp_status : Z;
  resp_data : SyncResult
}.

(** The query parameters [handleSync] passes to [syncMutation.mutate]. *)
Record SyncParams := {
  include_main : bool;
  lead_only : bool;
  reset_sessions : bool;
  rotate_tokens : bool;
  force_bootstrap : bool;
  p_overwrite : bool;
  board_id : option jsstring
}.

(** The [useState] cells of the dialog. *)
Record State := {
  includeMain : bool;
  leadOnly : bool;
  resetSessions : bool;
  rotateTokens : bool;
  forceBootstrap : bool;
  overwrite : bool;
  boardId : jsstring;
  result : option SyncResult;
  error : option jsstring
}.

Definition initial : State :=
  {| includeMain := true; leadOnly := false; resetSessions := false;
     rotateTokens := false; forceBootstrap := false; overwrite := false;
     boardId := []; result := None; error := None |}.

Definition set_outcome (r : option SyncResult) (e : option jsstring)
    (st : State) : State :=
  {| includeMain := includeMain st; leadOnly := leadOnly st;
     resetSessions := resetSessions st; rotateTokens := rotateTokens st;
     forceBootstrap := forceBootstrap st; overwrite := overwrite st;
     boardId := boardId st; result := r; error := e |}.

(** What can happen to the dialog: the form controls, the two buttons
    and the two callbacks of the mutation. *)
Inductive Event :=
| SetIncludeMain (b : bool)
| SetLeadOnly (b : bool)
| SetResetSessions (b : bool)
| SetRotateTokens (b : bool)
| SetForceBootstrap (b : bool)
| SetOverwrite (b : bool)
| SetBoardId (v : jsstring)
| HandleSync
| OnSuccess (response : Response)
| OnError (err_message : jsstring)
| HandleClose.

(** [board_id: boardId || null] *)
Definition board_param (v : jsstring) : option jsstring :=
  if truthy v then Some v else None.

Definition params_of (st : State) : SyncParams :=
  {| include_main := includeMain st; lead_only := leadOnly st;
     reset_sessions := resetSessions st; rotate_tokens := rotateTokens st;
     force_bootstrap := forceBootstrap st; p_overwrite := overwrite st;
     board_id := board_param (boardId st) |}.

(** [err.message || "Something went wrong."] *)
Definition error_message (m : jsstring) : jsstring :=
  if truthy m then m else lit "Something went wrong.".

(** One event: the state after the handler ran (its state updates are
    batched into one render), and the request [handleSync] issues. *)
Definition step (st : State) (ev : Event) : State * option SyncParams :=
  match ev with
  | SetIncludeMain b =>
      ({| includeMain := b; leadOnly := leadOnly st;
          resetSessions := resetSessions st; rotateTokens := rotateTokens st;
          forceBootstrap := forceBootstrap st; overwrite := overwrite st;
          boardId := boardId st; result := result st; error := error st |}, None)
  | SetLeadOnly b =>
      ({| includeMain := includeMain st; leadOnly := b;
          resetSessions := resetSessions st; rotateTokens := rotateTokens st;
          forceBootstrap := forceBootstrap st; overwrite := overwrite st;
          boardId := boardId st; result := result st; error := error st |}, None)
  | SetResetSessions b =>
      ({| includeMain := includeMain st; leadOnly := leadOnly st;
          resetSessions := b; rotateTokens := rotateTokens st;
          forceBootstrap := forceBootstrap st; overwrite := overwrite st;
          boardId := boardId st; result := result st; error := error st |}, None)
  | SetRotateTokens b =>
      ({| includeMain := includeMain st; leadOnly := leadOnly st;
          resetSessions := resetSessions st; rotateTokens := b;
          forceBootstrap := forceBootstrap st; overwrite := overwrite st;
          boardId := boardId st; result := result st; error := error st |}, None)
  | SetForceBootstrap b =>
      ({| includeMain := includeMain st; leadOnly := leadOnly st;
          resetSessions := resetSessions st; rotateTokens := rotateTokens st;
          forceBootstrap := b; overwrite := overwrite st;
          boardId := boardId st; result := result st; error := error st |}, None)
  | SetOverwrite b =>
      ({| includeMain := includeMain st; leadOnly := leadOnly st;
          resetSessions := resetSessions st; rotateTokens := rotateTokens st;
          forceBootstrap := forceBootstrap st; overwrite := b;
          boardId := boardId st; result := result st; error := error st |}, None)
  | SetBoardId v =>
      ({| includeMain := includeMain st; leadOnly := leadOnly st;
          resetSessions := resetSessions st; rotateTokens := rotateTokens st;
          forceBootstrap := forceBootstrap st; overwrite := overwrite st;
          boardId := v; result := result st; error := error st |}, None)
  | HandleSync => (set_outcome None None st, Some (params_of st))
  | OnSuccess response =>
      if (resp_status response =? 200)%Z
      then (set_outcome (Some (resp_data response)) None st, None)
      else (st, None)
  | OnError m => (set_outcome None (Some (error_message m)) st, None)
  | HandleClose => (set_outcome None None st, None)
  end.

Definition run (st : State) (evs : list Event) : State :=
  fold_left (fun s ev => fst (step s ev)) evs st.

(** What the dialog body shows. *)
Record View := {
  summary : option (Z * Z * bool);
  error_rows : list SyncErrorEntry;
  form_shown : bool;
  error_banner : option jsstring;
  sync_button : bool
}.

(** [result.errors && result.errors.length > 0 ? rows : null] *)
Definition rows_of (r : SyncResult) : list SyncErrorEntry :=
  match errors r with
  | Some es => if (0 <? length es)%nat then es else []
  | None => []
  end.

Definition render (st : State) : View :=
  {| summary :=
       match result st with
       | Some r => Some (agents_updated r, agents_skipped r, main_updated r)
       | None => None
       end;
     error_rows := match result st with Some r => rows_of r | None => [] end;
     form_shown := match result st with Some _ => false | None => true end;
     error_banner := if truthy_opt (error st) then error st else None;
     sync_button := match result st with Some _ => false | None => true end |}.

(** At most one of [result] and [error] is set. *)
Definition exclusive (st : State) : Prop :=
  result st = None \/ error st = None.

(** A response that reports one failed agent among five. *)
Definition partial_result : SyncResult :=
  {| agents_updated := 4; agents_skipped := 0; main_updated := true;
     errors := Some [ {| agent_id := lit "agent-3";
                         error_text := lit "gateway timeout" |} ] |}.

Lemma rows_of_errors r es : errors r = Some es -> rows_of r = es.
Proof.
  unfold rows_of. intros ->. destruct es; reflexivity.
Qed.

Lemma error_message_truthy m : truthy (error_message m) = true.
Proof.
  unfold error_message. destruct (truthy m) eqn:E; [exact E | reflexivity].
Qed.

Lemma step_exclusive st ev : exclusive st -> exclusive (fst (step st ev)).
Proof.
  unfold exclusive. intros H.
  destruct ev; simpl; try exact H; try (now left); try (now right).
  destruct (resp_status response =? 200)%Z; simpl; [now right | exact H].
Qed.

Lemma run_exclusive evs : forall st, exclusive st -> exclusive (run st evs).
Proof.
  induction evs as [|ev evs IH]; intros st H; [exact H|].
  simpl. apply IH. now apply step_exclusive.
Qed.

Example render_partial_success :
  render (run initial
            [HandleSync; OnSuccess {| resp_status := 200; resp_data := partial_result |}])
  = {| summary := Some (4, 0, true)%Z;
       error_rows := [ {| agent_id := lit "agent-3";
                          error_text := lit "gateway timeout" |} ];
       form_shown := false; error_banner := None; sync_button := false |}.
Proof. reflexivity. Qed.

Example render_whole_failure :
  render (run initial [HandleSync; OnError (lit "Gateway unreachable")])
  = {| summary := None; error_rows := []; form_shown := true;
       error_banner := Some (lit "Gateway unreachable"); sync_button := true |}.
Proof. reflexivity. Qed.

(** C4: in every state the dialog can reach, at most one of [result]
    and [error] is set, and every transition keeps it so.  Starting a
    sync and closing the dialog clear both; a failure of the whole
    operation leaves an error banner and no result panel or rows; a
    successful response (status 200) leaves the aggregate results with
    one row per entry of its error list, and no error banner. *)
Theorem sync_dialog_result_error_exclusive :
  (forall evs, exclusive (run initial evs))
  /\ (forall st ev, exclusive st -> exclusive (fst (step st ev)))
  /\ (forall st ev, ev = HandleSync \/ ev = HandleClose ->
        result (fst (step st ev)) = None /\ error (fst (step st ev)) = None)
  /\ (forall st m,
        let st' := fst (step st (OnError m)) in
        result st' = None /\
        summary (render st') = None /\ error_rows (render st') = [] /\
        error_banner (render st') = Some (error_message m) /\
        error_message m <> [] /\ (m <> [] -> error_message m = m))
  /\ (forall st r,
        let st' := fst (step st (OnSuccess {| resp_status := 200; resp_data := r |})) in
        error st' = None /\ result st' = Some r /\
        summary (render st') =
          Some (agents_updated r, agents_skipped r, main_updated r) /\
        error_banner (render st') = None /\
        (forall es, errors r = Some es -> error_rows (render st') = es)).
Proof.
  split.
  { intros evs. apply run_exclusive. now left. }
  split; [exact step_exclusive|].
  split.
  { intros st ev [-> | ->]; split; reflexivity. }
  split.
  { intros st m. cbn zeta. simpl.
    pose proof (error_message_truthy m) as Ht.
    rewrite Ht. repeat split.
    - intros E. rewrite E in Ht. discriminate.
    - intros Hm. unfold error_message. destruct m; [congruence | reflexivity]. }
  intros st r. cbn zeta. simpl. repeat split.
  intros es Hes. now apply rows_of_errors.
Qed.

End TemplateSyncDialog.

(** ** History store and inbound dispatch (bridge side) *)

Module HistoryStore.
Import JS.

#[global] Instance jsstring_eq_dec : EqDecision jsstring :=
  (_ : EqDecision (list N)).
#[global] Instance jsstring_countable : Countable jsstring :=
  (_ : Countable (list N)).

(** A recorded event: its arrival sequence number, its timestamp, a
    free-form type and the payload. *)
Record HistoryEvent := {
  seq : N;
  timestamp : N;
  event_type : jsstring;
  content : jsstring
}.

(** Modelled from the spec: the History Store of section 4.4, which is
    backend code outside the sources.  One append-only log per session
    the registry knows, the next arrival sequence number, and the
    retention cap (the most recent [cap] events of a session are kept). *)
Record Store := {
  logs : gmap jsstring (list HistoryEvent);
  next_seq : N;
  cap : nat
}.

Inductive Error := SessionNotFoundError.

Definition empty_store (cap : nat) : Store :=
  {| logs := ∅; next_seq := 0; cap := cap |}.

(** Oldest-first eviction down to the cap. *)
Definition evict (cap : nat) (l : list HistoryEvent) : list HistoryEvent :=
  drop (length l - cap)%nat l.

(** Modelled from the spec: [upsertSession] on a "created" lifecycle
    frame (section 4.2): the session gets a record, with no event yet. *)
Definition createSession (sid : jsstring) (st : Store) : Store :=
  match logs st !! sid with
  | Some _ => st
  | None => {| logs := <[sid := []]> (logs st); next_seq := next_seq st;
               cap := cap st |}
  end.

(** Modelled from the spec: the timestamp a new event of a log gets.
    It is the time the frame was received, and never earlier than the
    timestamp of the event before it in the log, so that a log is in
    timestamp order as well as in arrival order (section 8), whatever
    the receive clock does. *)
Definition stamp (l : list HistoryEvent) (received : N) : N :=
  match last l with
  | Some previous => N.max (timestamp previous) received
  | None => received
  end.

(** Modelled from the spec: [onFrame] (section 4.3) appends the frame to
    its session's log in arrival order; a frame of a session without
    record writes nothing (every event references a known session). *)
Definition onFrame (sid : jsstring) (received : N) (ty body : jsstring)
    (st : Store) : Store :=
  match logs st !! sid with
  | None => st
  | Some l =>
      let e := {| seq := next_seq st; timestamp := stamp l received;
                  event_type := ty; content := body |} in
      {| logs := <[sid := evict (cap st) (l ++ [e])]> (logs st);
         next_seq := next_seq st + 1; cap := cap st |}
  end.

(** Modelled from the spec: [getHistory] (section 4.4), oldest first. *)
Definition getHistory (st : Store) (sid : jsstring)
    : Error + list HistoryEvent :=
  match logs st !! sid with
  | None => inl SessionNotFoundError
  | Some l => inr l
  end.

(** What the frame-processing path does to the store, one frame at a
    time (the single writer of section 5). *)
Inductive Op :=
| Created (sid : jsstring)
| Frame (sid : jsstring) (received : N) (ty body : jsstring).

Definition apply_op (st : Store) (op : Op) : Store :=
  match op with
  | Created sid => createSession sid st
  | Frame sid received ty body => onFrame sid received ty body st
  end.

Definition run_from (st : Store) (ops : list Op) : Store :=
  fold_left apply_op ops st.

Definition run (cap : nat) (ops : list Op) : Store :=
  run_from (empty_store cap) ops.















Lemma stamp_not_before l received : received <= stamp l received.
Proof. unfold stamp. destruct (last l); lia. Qed.








End HistoryStore.

(** ** Session history dialog (SessionHistoryDialog.tsx) *)

Module SessionHistoryDialog.
Import JS.

(** [interface HistoryEvent] of the dialog: optional strings. *)
Record HistoryEvent := {
  timestamp : option jsstring;
  event_type : option jsstring;
  content : option jsstring
}.

Record ApiError := { message : jsstring }.

(** The response body the query holds: a status and [data.history]. *)
Record Response := {
  status : Z;
  history_field : option (list HistoryEvent)
}.

(** What the dialog reads of [historyQuery]. *)
Record QueryState := {
  isLoading : bool;
  error : option ApiError;
  data : option Response
}.

(** The [history] memo: [data.history ?? []] on status 200, else []. *)
Definition history (q : QueryState) : list HistoryEvent :=
  match data q with
  | Some r =>
      if (status r =? 200)%Z
      then match history_field r with Some h => h | None => [] end
      else []
  | None => []
  end.

(** One rendered event; [key] is the index in the list. *)
Record Row := {
  key : nat;
  row_event_type : option jsstring;
  row_content : option jsstring;
  row_timestamp : option jsstring
}.

(** The scrollable body of the dialog. *)
Inductive Body :=
| Loading
| ErrorBox (text : jsstring)
| EmptyState (text : jsstring)
| Rows (rows : list Row).

Definition shown (o : option jsstring) : option jsstring :=
  if truthy_opt o then o else None.

Section Dialog.

(** [formatTimestamp] of [@/lib/formatters], which is outside the sources. *)
Variable formatTimestamp : jsstring -> jsstring.

Definition render_row (index : nat) (event : HistoryEvent) : Row :=
  {| key := index;
     row_event_type := shown (event_type event);
     row_content := shown (content event);
     row_timestamp :=
       match shown (timestamp event) with
       | Some t => Some (formatTimestamp t)
       | None => None
       end |}.

Definition body (q : QueryState) : Body :=
  if isLoading q then Loading
  else match error q with
       | Some e => ErrorBox (message e)
       | None =>
           if (length (history q) =? 0)%nat
           then EmptyState (lit "No history events found.")
           else Rows (imap render_row (history q))
       end.

(** Modelled from the spec: the south-side API (section 6) between the
    store and the dialog, which is outside the sources: a typed success
    payload, or a structured error with a human-readable message.
    [describe] is that message, [show_time] the wire form of a time. *)
Variable describe : HistoryStore.Error -> jsstring.
Variable show_time : N -> jsstring.

Definition wire (e : HistoryStore.HistoryEvent) : HistoryEvent :=
  {| timestamp := Some (show_time (HistoryStore.timestamp e));
     event_type := Some (HistoryStore.event_type e);
     content := Some (HistoryStore.content e) |}.

(** The query once the request has settled. *)
Definition settled (r : HistoryStore.Error + list HistoryStore.HistoryEvent)
    : QueryState :=
  match r with
  | inl err =>
      {| isLoading := false; error := Some {| message := describe err |};
         data := None |}
  | inr evs =>
      {| isLoading := false; error := None;
         data := Some {| status := 200;
                         history_field := Some (List.map wire evs) |} |}
  end.

Lemma history_settled evs : history (settled (inr evs)) = List.map wire evs.
Proof. reflexivity. Qed.



Lemma body_error q e :
  isLoading q = false -> error q = Some e -> body q = ErrorBox (message e).
Proof. unfold body. now intros -> ->. Qed.

Lemma body_empty q :
  isLoading q = false -> error q = None -> history q = [] ->
  body q = EmptyState (lit "No history events found.").
Proof. unfold body. now intros -> -> ->. Qed.

(** C6: [getHistory] fails with [SessionNotFoundError] exactly when the
    store has no record of the session, and returns the empty sequence
    for a session that exists without events (a store that never heard
    of the session, against one that saw it created).  The dialog shows
    the error's message in the first case and the empty state
    "No history events found." in the second. *)
Theorem getHistory_unknown_vs_empty (st : HistoryStore.Store) (sid : jsstring) :
  (HistoryStore.getHistory st sid = inl HistoryStore.SessionNotFoundError
     <-> HistoryStore.logs st !! sid = None)
  /\ (HistoryStore.getHistory st sid = inr []
     <-> HistoryStore.logs st !! sid = Some [])
  /\ (forall cap,
        HistoryStore.getHistory (HistoryStore.run cap []) sid =
          inl HistoryStore.SessionNotFoundError /\
        HistoryStore.getHistory
          (HistoryStore.run cap [HistoryStore.Created sid]) sid = inr [])
  /\ (HistoryStore.logs st !! sid = None ->
        body (settled (HistoryStore.getHistory st sid)) =
          ErrorBox (describe HistoryStore.SessionNotFoundError))
  /\ (HistoryStore.logs st !! sid = Some [] ->
        body (settled (HistoryStore.getHistory st sid)) =
          EmptyState (lit "No history events found."))
  /\ (forall q e, isLoading q = false -> error q = Some e ->
        body q = ErrorBox (message e))
  /\ (forall q, isLoading q = false -> error q = None -> history q = [] ->
        body q = EmptyState (lit "No history events found.")).
Proof.
  unfold HistoryStore.getHistory.
  split.
  { destruct (HistoryStore.logs st !! sid); split; congruence. }
  split.
  { destruct (HistoryStore.logs st !! sid); split; congruence. }
  split.
  { intros cap. split.
    - unfold HistoryStore.run, HistoryStore.empty_store. simpl.
      now rewrite lookup_empty.
    - unfold HistoryStore.run, HistoryStore.empty_store. simpl.
      unfold HistoryStore.createSession. simpl.
      rewrite lookup_empty. simpl. now rewrite lookup_insert_eq. }
  split; [now intros -> |].
  split; [now intros -> |].
  split; [exact body_error | exact body_empty].
Qed.



End Dialog.


End SessionHistoryDialog.

(** ** Template sync orchestrator (bridge side) *)

Module TemplateSync.
Import JS.

Record Agent := {
  agent_id : jsstring;
  agent_board : option jsstring;
  is_lead : bool
}.

(** The options of [syncTemplates], as the dialog sends them. *)
Record SyncOptions := {
  includeMain : bool;
  leadOnly : bool;
  resetSessions : bool;
  rotateTokens : bool;
  forceBootstrap : bool;
  overwrite : bool;
  boardId : option jsstring
}.

Record ErrorEntry := {
  err_agent_id : jsstring;
  err_error : jsstring
}.

(** The Sync Result of section 3. *)
Record SyncResult := {
  agents_updated : N;
  agents_skipped : N;
  main_updated : bool;
  errors : list ErrorEntry
}.

Inductive Outcome := Updated | Skipped.

(** One per-agent operation: it completes, or it raises. *)
Inductive Attempt :=
| Completed (o : Outcome)
| Raised (msg : jsstring).

(** What an operation of the south-side API gives its caller. *)
Inductive ApiResult (A : Type) :=
| Success (a : A)
| Thrown (msg : jsstring).
Arguments Success {A} a.
Arguments Thrown {A} msg.

Definition same_board (filter board : option jsstring) : bool :=
  match filter, board with
  | None, _ => true
  | Some b, Some b' => bool_decide (b = b')
  | Some _, None => false
  end.

(** The candidate set: all agents, optionally of one board, optionally
    leads only. *)
Definition candidate (opts : SyncOptions) (a : Agent) : bool :=
  same_board (boardId opts) (agent_board a) &&
  (negb (leadOnly opts) || is_lead a).

Definition candidates (opts : SyncOptions) (agents : list Agent) : list Agent :=
  List.filter (candidate opts) agents.

Definition record_attempt (a : Agent) (att : Attempt) (r : SyncResult)
    : SyncResult :=
  match att with
  | Completed Updated =>
      {| agents_updated := agents_updated r + 1;
         agents_skipped := agents_skipped r;
         main_updated := main_updated r; errors := errors r |}
  | Completed Skipped =>
      {| agents_updated := agents_updated r;
         agents_skipped := agents_skipped r + 1;
         main_updated := main_updated r; errors := errors r |}
  | Raised msg =>
      {| agents_updated := agents_updated r;
         agents_skipped := agents_skipped r;
         main_updated := main_updated r;
         errors := errors r ++ [ {| err_agent_id := agent_id a;
                                    err_error := msg |} ] |}
  end.

(** A run over five candidates, the third of which raises.  The gateway
    is the list of sessions whose templates were pushed, newest first. *)
Definition demo_agent (name : string) : Agent :=
  {| agent_id := lit name; agent_board := None; is_lead := false |}.

Definition demo_agents : list Agent :=
  [ demo_agent "agent-1"; demo_agent "agent-2"; demo_agent "agent-3";
    demo_agent "agent-4"; demo_agent "agent-5" ].

Definition demo_options : SyncOptions :=
  {| includeMain := true; leadOnly := false; resetSessions := false;
     rotateTokens := false; forceBootstrap := false; overwrite := false;
     boardId := None |}.

Definition demo_sync_agent (_ : SyncOptions) (a : Agent) (g : list jsstring)
    : list jsstring * Attempt :=
  if bool_decide (agent_id a = lit "agent-3")
  then (g, Raised (lit "gateway timeout"))
  else (agent_id a :: g, Completed Updated).

Definition demo_sync_main (_ : SyncOptions) (g : list jsstring)
    : list jsstring * bool :=
  (lit "main" :: g, true).

Section Orchestrator.

(** The gateway the operations act on, the per-agent operation (push
    the templates, then reset, rotate, bootstrap and overwrite as the
    options say) and the update of the main session. *)
Variable Gateway : Type.
Variable sync_agent : SyncOptions -> Agent -> Gateway -> Gateway * Attempt.
Variable sync_main : SyncOptions -> Gateway -> Gateway * bool.

(** Modelled from the spec: the per-agent loop of section 4.5, backend
    code outside the sources.  A raised operation becomes an entry of
    the error list; the loop goes on with the next agent. *)
Fixpoint sync_each (opts : SyncOptions) (cands : list Agent) (g : Gateway)
    (r : SyncResult) : Gateway * SyncResult :=
  match cands with
  | [] => (g, r)
  | a :: rest =>
      let (g', att) := sync_agent opts a g in
      sync_each opts rest g' (record_attempt a att r)
  end.

Definition sync_main_if (opts : SyncOptions) (g : Gateway) : Gateway * bool :=
  if includeMain opts then sync_main opts g else (g, false).

(** Modelled from the spec: [syncTemplates] (section 4.5), backend code
    outside the sources. *)
Definition syncTemplates (opts : SyncOptions) (agents : list Agent)
    (g : Gateway) : Gateway * ApiResult SyncResult :=
  let (g1, m) := sync_main_if opts g in
  let (g2, r) :=
    sync_each opts (candidates opts agents) g1
      {| agents_updated := 0; agents_skipped := 0; main_updated := m;
         errors := [] |} in
  (g2, Success r).

(** The attempts of one run, in order, with what each one gave. *)
Fixpoint attempts (opts : SyncOptions) (cands : list Agent) (g : Gateway)
    : list (Agent * Attempt) :=
  match cands with
  | [] => []
  | a :: rest =>
      let (g', att) := sync_agent opts a g in
      (a, att) :: attempts opts rest g'
  end.

Definition is_updated (x : Agent * Attempt) : bool :=
  match snd x with Completed Updated => true | _ => false end.
Definition is_skipped (x : Agent * Attempt) : bool :=
  match snd x with Completed Skipped => true | _ => false end.
Definition is_raised (x : Agent * Attempt) : bool :=
  match snd x with Raised _ => true | _ => false end.

Fixpoint failures (tr : list (Agent * Attempt)) : list ErrorEntry :=
  match tr with
  | [] => []
  | (a, Raised msg) :: rest =>
      {| err_agent_id := agent_id a; err_error := msg |} :: failures rest
  | _ :: rest => failures rest
  end.

Definition count (p : Agent * Attempt -> bool) (tr : list (Agent * Attempt)) : N :=
  N.of_nat (length (List.filter p tr)).

Lemma attempts_agents opts cands :
  forall g, List.map fst (attempts opts cands g) = cands.
Proof.
  induction cands as [|a rest IH]; intros g; [reflexivity|].
  simpl. destruct (sync_agent opts a g) as [g' att]. simpl. now rewrite IH.
Qed.

Lemma failures_length tr : N.of_nat (length (failures tr)) = count is_raised tr.
Proof.
  unfold count. induction tr as [|[a [o|msg]] rest IH]; simpl; try exact IH.
  - reflexivity.
  - lia.
Qed.

Lemma count_total tr :
  count is_updated tr + count is_skipped tr + count is_raised tr =
  N.of_nat (length tr).
Proof.
  unfold count. induction tr as [|[a [[|]|msg]] rest IH]; simpl in *; lia.
Qed.

(** The loop adds to the running result what the attempts gave. *)
Lemma sync_each_spec opts cands :
  forall g r,
    let tr := attempts opts cands g in
    let r' := snd (sync_each opts cands g r) in
    agents_updated r' = agents_updated r + count is_updated tr /\
    agents_skipped r' = agents_skipped r + count is_skipped tr /\
    main_updated r' = main_updated r /\
    errors r' = errors r ++ failures tr.
Proof.
  unfold count.
  induction cands as [|a rest IH]; intros g r; simpl.
  - rewrite app_nil_r. repeat split; lia.
  - destruct (sync_agent opts a g) as [g' att]. simpl.
    destruct (IH g' (record_attempt a att r)) as (H1 & H2 & H3 & H4).
    rewrite H1, H2, H3, H4.
    destruct att as [[|]|msg]; simpl; repeat split; try lia.
    now rewrite <- app_assoc.
Qed.

(** The gateway ends where the attempts of all candidates leave it. *)
Lemma sync_each_app opts l1 l2 :
  forall g r,
    sync_each opts (l1 ++ l2) g r =
    sync_each opts l2 (fst (sync_each opts l1 g r)) (snd (sync_each opts l1 g r)).
Proof.
  induction l1 as [|a rest IH]; intros g r; [reflexivity|].
  simpl. destruct (sync_agent opts a g) as [g' att]. apply IH.
Qed.

(** Every candidate's operation runs on the gateway, one after the other. *)
Lemma sync_each_gateway opts cands :
  forall g r,
    fst (sync_each opts cands g r) =
    fold_left (fun g a => fst (sync_agent opts a g)) cands g.
Proof.
  induction cands as [|a rest IH]; intros g r; [reflexivity|].
  simpl. destruct (sync_agent opts a g) as [g' att]. simpl. apply IH.
Qed.

Lemma attempts_app opts l1 l2 :
  forall g r,
    attempts opts (l1 ++ l2) g =
    attempts opts l1 g ++ attempts opts l2 (fst (sync_each opts l1 g r)).
Proof.
  induction l1 as [|a rest IH]; intros g r; [reflexivity|].
  simpl. destruct (sync_agent opts a g) as [g' att]. simpl.
  f_equal. apply IH.
Qed.

End Orchestrator.

Example syncTemplates_five_one_error :
  syncTemplates (list jsstring) demo_sync_agent demo_sync_main
    demo_options demo_agents []
  = ([lit "agent-5"; lit "agent-4"; lit "agent-2"; lit "agent-1"; lit "main"],
     Success {| agents_updated := 4; agents_skipped := 0; main_updated := true;
                errors := [ {| err_agent_id := lit "agent-3";
                               err_error := lit "gateway timeout" |} ] |}).
Proof. vm_compute. reflexivity. Qed.

(** C3: a run of [syncTemplates] always returns a success result, never
    a thrown error.  Every candidate is attempted, in order, whatever
    the earlier ones gave; the result counts the updated and the skipped
    agents, carries the main flag, and lists one [{agent_id, error}]
    entry per raised attempt, in the order of the attempts, so the three
    add up to the number of candidates.  With exactly one raised attempt
    and nothing skipped, all other candidates are counted as updated
    (five candidates: four updated, one error entry). *)
Theorem syncTemplates_partial_failure (Gateway : Type)
    (sync_agent : SyncOptions -> Agent -> Gateway -> Gateway * Attempt)
    (sync_main : SyncOptions -> Gateway -> Gateway * bool)
    (opts : SyncOptions) (agents : list Agent) (g : Gateway) :
  exists r,
    snd (syncTemplates Gateway sync_agent sync_main opts agents g) = Success r /\
    let cands := candidates opts agents in
    let tr := attempts Gateway sync_agent opts cands
                (fst (sync_main_if Gateway sync_main opts g)) in
    List.map fst tr = cands /\
    fst (syncTemplates Gateway sync_agent sync_main opts agents g) =
      fold_left (fun g a => fst (sync_agent opts a g)) cands
        (fst (sync_main_if Gateway sync_main opts g)) /\
    agents_updated r = count is_updated tr /\
    agents_skipped r = count is_skipped tr /\
    main_updated r = snd (sync_main_if Gateway sync_main opts g) /\
    errors r = failures tr /\
    N.of_nat (length (errors r)) = count is_raised tr /\
    agents_updated r + agents_skipped r + N.of_nat (length (errors r))
      = N.of_nat (length cands) /\
    (count is_raised tr = 1 -> agents_skipped r = 0 ->
       agents_updated r + 1 = N.of_nat (length cands) /\
       length (errors r) = 1%nat).
Proof.
  pose proof (sync_each_gateway Gateway sync_agent opts (candidates opts agents))
    as Hgw.
  unfold syncTemplates.
  destruct (sync_main_if Gateway sync_main opts g) as [g1 m] eqn:Em.
  set (r0 := {| agents_updated := 0; agents_skipped := 0; main_updated := m;
                errors := [] |}).
  pose proof (sync_each_spec Gateway sync_agent opts (candidates opts agents) g1 r0)
    as Hspec.
  destruct (sync_each Gateway sync_agent opts (candidates opts agents) g1 r0)
    as [g2 r] eqn:Er.
  cbn zeta in Hspec. simpl in Hspec. destruct Hspec as (H1 & H2 & H3 & H4).
  exists r. split; [reflexivity|]. cbn zeta. simpl fst. simpl snd.
  set (tr := attempts Gateway sync_agent opts (candidates opts agents) g1) in *.
  assert (Hlen : length tr = length (candidates opts agents)).
  { unfold tr.
    rewrite <- (attempts_agents Gateway sync_agent opts (candidates opts agents) g1)
      at 2.
    now rewrite length_map. }
  pose proof (count_total tr) as Htot.
  pose proof (failures_length tr) as Hfail.
  assert (Herr : N.of_nat (length (errors r)) = count is_raised tr)
    by (rewrite H4; exact Hfail).
  split; [apply attempts_agents|].
  split; [rewrite <- (Hgw g1 r0), Er; reflexivity|].
  split; [lia|]. split; [lia|]. split; [exact H3|]. split; [exact H4|].
  split; [exact Herr|].
  split; [rewrite <- Hlen; lia|].
  intros Hone Hskip. split; [rewrite <- Hlen; lia | lia].
Qed.

End TemplateSync.

(** ** Gateway form: validation of the gateway URL
    (gateway-form.ts; only its test file gateway-form.test.ts is among
    the sources) *)

Module GatewayForm.
Import JS.

Definition COLON : N := 58.
Definition AT : N := 64.
Definition LBRACKET : N := 91.
Definition RBRACKET : N := 93.

Definition is_alpha (c : N) : bool :=
  ((65 <=? c) && (c <=? 90)) || ((97 <=? c) && (c <=? 122)).

Definition is_digit (c : N) : bool := (48 <=? c) && (c <=? 57).

Definition is_hex_digit (c : N) : bool :=
  is_digit c || ((65 <=? c) && (c <=? 70)) || ((97 <=? c) && (c <=? 102)).

(** Letters, digits, [+], [-] and [.]. *)
Definition is_scheme_char (c : N) : bool :=
  is_alpha c || is_digit c || (c =? 43) || (c =? 45) || (c =? 46).

(** The code points a host name may not hold: controls and the space,
    [#], [%], [/], [:], [<], [>], [?], [@], the square brackets, the
    backslash, [^], [|] and DEL. *)
Definition is_forbidden_host (c : N) : bool :=
  (c <=? 32) || (c =? 35) || (c =? 37) || (c =? 47) || (c =? 58) ||
  (c =? 60) || (c =? 62) || (c =? 63) || (c =? 64) || (c =? 91) ||
  (c =? 92) || (c =? 93) || (c =? 94) || (c =? 124) || (c =? 127).

Definition is_host_char (c : N) : bool := negb (is_forbidden_host c).

(** Inside the brackets of an IP literal: hexadecimal digits, [:], [.]. *)
Definition is_ip_char (c : N) : bool :=
  is_hex_digit c || (c =? 58) || (c =? 46).

(** [/], [?] and [#] end the authority part. *)
Definition is_authority_end (c : N) : bool :=
  (c =? 47) || (c =? 63) || (c =? 35).

Definition is_colon (c : N) : bool := c =? COLON.
Definition is_at (c : N) : bool := c =? AT.
Definition is_rbracket (c : N) : bool := c =? RBRACKET.

(** The longest prefix without a code unit satisfying [p], and what follows. *)
Fixpoint break_at (p : N -> bool) (s : jsstring) : jsstring * jsstring :=
  match s with
  | [] => ([], [])
  | c :: r =>
      if p c then ([], s)
      else let (a, b) := break_at p r in (c :: a, b)
  end.

Fixpoint strip_prefix (pre s : jsstring) : option jsstring :=
  match pre, s with
  | [], _ => Some s
  | p :: pre', c :: s' => if p =? c then strip_prefix pre' s' else None
  | _ :: _, [] => None
  end.

Definition port_value (digits : jsstring) : N :=
  fold_left (fun v d => 10 * v + (d - 48)) digits 0.

Definition valid_scheme (s : jsstring) : bool :=
  match s with
  | [] => false
  | c :: _ => is_alpha c && forallb is_scheme_char s
  end.

Definition valid_host (h : jsstring) : bool :=
  truthy h && forallb is_host_char h.

Definition valid_port (p : jsstring) : bool :=
  truthy p && forallb is_digit p && (port_value p <=? 65535).

(** Modelled from the spec: the scheme of a text, [scheme:] at its
    start, and what follows the colon.  A text without a scheme is no
    URL at all. *)
Definition split_scheme (text : jsstring) : option (jsstring * jsstring) :=
  let (sch, r) := break_at (fun c => negb (is_scheme_char c)) text in
  match r with
  | c :: after =>
      if is_colon c && valid_scheme sch then Some (sch, after) else None
  | [] => None
  end.

(** Modelled from the spec: what follows the last [@] of the authority
    (all of it without one); the part before is the user information. *)
Definition after_userinfo (authority : jsstring) : jsstring :=
  rev (fst (break_at is_at (rev authority))).

(** Modelled from the spec: what follows the host.  Nothing or a lone
    colon declare no port ([Some None]); a colon and a port number
    declare it; anything else is malformed ([None]). *)
Definition parse_port (pp : jsstring) : option (option jsstring) :=
  match pp with
  | [] => Some None
  | c :: ds =>
      if is_colon c then
        match ds with
        | [] => Some None
        | _ :: _ => if valid_port ds then Some (Some ds) else None
        end
      else None
  end.

(** Modelled from the spec: host and port, a bracketed IP literal or a
    host name, then the port part. *)
Definition parse_hostport (hp : jsstring) : option (option jsstring) :=
  match hp with
  | [] => None
  | c :: r =>
      if c =? LBRACKET then
        let (inner, r2) := break_at is_rbracket r in
        match r2 with
        | [] => None
        | _ :: pp =>
            if truthy inner && forallb is_ip_char inner then parse_port pp
            else None
        end
      else
        let (h, pp) := break_at is_colon hp in
        if valid_host h then parse_port pp else None
  end.

(** Modelled from the spec: the authority of a [ws]/[wss] URL.  What
    follows [scheme:] must be [//], then an optional [userinfo@], the
    host, an optional port, and then nothing or a path, query or
    fragment.  The answer is the declared port, or [None] when the text
    is malformed. *)
Definition parse_authority (after : jsstring) : option (option jsstring) :=
  match strip_prefix (lit "//") after with
  | None => None
  | Some r =>
      let (authority, _) := break_at is_authority_end r in
      parse_hostport (after_userinfo authority)
  end.

Definition is_ws_scheme (s : jsstring) : bool :=
  bool_decide (s = lit "ws") || bool_decide (s = lit "wss").

Definition MSG_REQUIRED : jsstring := lit "Gateway URL is required.".
Definition MSG_PORT : jsstring := lit "Gateway URL must include an explicit port.".
Definition MSG_SCHEME : jsstring := lit "Gateway URL must start with ws:// or wss://.".
Definition MSG_INVALID : jsstring := lit "Enter a valid gateway URL including port.".

(** Modelled from the spec: [validateGatewayUrl] of gateway-form.ts,
    which is outside the sources: the case analysis of section 6, on the
    trimmed input.  [None] is the [null] of an accepted URL. *)
Definition validateGatewayUrl (value : jsstring) : option jsstring :=
  let trimmed := trim value in
  if negb (truthy trimmed) then Some MSG_REQUIRED
  else match split_scheme trimmed with
       | None => Some MSG_INVALID
       | Some (sch, after) =>
           if negb (is_ws_scheme sch) then Some MSG_SCHEME
           else match parse_authority after with
                | None => Some MSG_INVALID
                | Some None => Some MSG_PORT
                | Some (Some _) => None
                end
       end.

(** *** The case analysis, stated on the text itself *)












Ltac bool_prop H :=
  repeat first
    [ rewrite negb_true_iff in H | rewrite negb_false_iff in H
    | rewrite orb_true_iff in H | rewrite andb_true_iff in H
    | rewrite orb_false_iff in H | rewrite andb_false_iff in H
    | rewrite N.eqb_eq in H | rewrite N.eqb_neq in H
    | rewrite N.leb_le in H | rewrite N.leb_gt in H ].

Ltac bool_goal :=
  repeat first
    [ rewrite negb_true_iff | rewrite negb_false_iff
    | rewrite orb_true_iff | rewrite andb_true_iff
    | rewrite orb_false_iff | rewrite andb_false_iff
    | rewrite N.eqb_eq | rewrite N.eqb_neq
    | rewrite N.leb_le | rewrite N.leb_gt ].

Ltac char_cases :=
  let H := fresh "H" in
  intros H; bool_prop H; bool_goal; lia.

(** The cases of gateway-form.test.ts. *)
Example test_ws_non_default_port :
  validateGatewayUrl (lit "ws://localhost:18789") = None.
Proof. vm_compute. reflexivity. Qed.

Example test_wss_non_default_port :
  validateGatewayUrl (lit "wss://gateway.example.com:8443") = None.
Proof. vm_compute. reflexivity. Qed.

Example test_wss_default_port :
  validateGatewayUrl (lit "wss://devbot.tailcc2080.ts.net:443") = None.
Proof. vm_compute. reflexivity. Qed.

Example test_ws_default_port :
  validateGatewayUrl (lit "ws://localhost:80") = None.
Proof. vm_compute. reflexivity. Qed.

Example test_path_after_port :
  validateGatewayUrl (lit "wss://host.example.com:443/gateway") = None.
Proof. vm_compute. reflexivity. Qed.

Example test_trims :
  validateGatewayUrl (lit "  wss://host:443  ") = None.
Proof. vm_compute. reflexivity. Qed.

Example test_empty : validateGatewayUrl [] = Some MSG_REQUIRED.
Proof. vm_compute. reflexivity. Qed.

Example test_wss_no_port :
  validateGatewayUrl (lit "wss://gateway.example.com") = Some MSG_PORT.
Proof. vm_compute. reflexivity. Qed.

Example test_ws_no_port :
  validateGatewayUrl (lit "ws://localhost") = Some MSG_PORT.
Proof. vm_compute. reflexivity. Qed.

Example test_https :
  validateGatewayUrl (lit "https://gateway.example.com:443") = Some MSG_SCHEME.
Proof. vm_compute. reflexivity. Qed.

Example test_http :
  validateGatewayUrl (lit "http://localhost:8080") = Some MSG_SCHEME.
Proof. vm_compute. reflexivity. Qed.

Example test_not_a_url :
  validateGatewayUrl (lit "not-a-url") = Some MSG_INVALID.
Proof. vm_compute. reflexivity. Qed.

Example test_whitespace_only :
  validateGatewayUrl (lit "   ") = Some MSG_REQUIRED.
Proof. vm_compute. reflexivity. Qed.

(** *** Code units of the classes *)








(** *** Breaking a text *)

Lemma break_at_split p s : s = fst (break_at p s) ++ snd (break_at p s).
Proof.
  induction s as [|c r IH]; [reflexivity|]. simpl.
  destruct (p c); [reflexivity|].
  destruct (break_at p r) as [a b]. simpl in *. now rewrite IH at 1.
Qed.





(** *** The scheme *)





(** *** Host and port *)







(** *** The authority *)








(** *** The validator *)














End GatewayForm.

(** ** Protocol blocks: when a block normalises to nothing *)

Module ProtocolBlocks.
Import JS AgentProfile.

Lemma split_lines_lf r : split_lines (LF :: r) = [] :: split_lines r.
Proof. reflexivity. Qed.

Lemma split_lines_crlf r : split_lines (CR :: LF :: r) = [] :: split_lines r.
Proof. reflexivity. Qed.

Lemma cons_head_shape c l : cons_head c l = (c :: hd [] l) :: tl l.
Proof. now destruct l. Qed.

(** Induction along the way [split_lines] reads its input. *)
Lemma split_lines_cases (P : jsstring -> Prop) :
  P [] ->
  (forall r, P r -> P (LF :: r)) ->
  (forall r, P r -> P (CR :: LF :: r)) ->
  (forall c r,
      (c =? 10) = false ->
      match r with d :: _ => (c =? 13) && (d =? 10) | [] => false end = false ->
      P r -> P (c :: r)) ->
  forall s, P s.
Proof.
  intros Hnil Hlf Hcrlf Hkeep.
  assert (Hgen : forall n s, (length s <= n)%nat -> P s).
  { induction n as [|n IH]; intros s Hn.
    - destruct s; [exact Hnil | simpl in Hn; lia].
    - destruct s as [|c r]; [exact Hnil|]. simpl in Hn.
      destruct (N.eqb_spec c 10) as [->|Hc].
      + apply Hlf, IH. lia.
      + destruct (N.eqb_spec c 13) as [->|Hc13].
        * destruct r as [|d r'].
          -- apply Hkeep; [reflexivity | reflexivity | exact Hnil].
          -- destruct (N.eqb_spec d 10) as [->|Hd].
             ++ apply Hcrlf, IH. simpl in Hn. lia.
             ++ apply Hkeep; [reflexivity | | apply IH; lia].
                simpl. now apply N.eqb_neq.
        * apply Hkeep; [now apply N.eqb_neq | | apply IH; lia].
          destruct r; [reflexivity|].
          apply andb_false_iff. left. now apply N.eqb_neq. }
  intros s. apply (Hgen (length s)). lia.
Qed.

(** Every code unit of a piece is a code unit of the input. *)
Lemma split_lines_piece_In s :
  forall p c, In p (split_lines s) -> In c p -> In c s.
Proof.
  pattern s. apply split_lines_cases; clear s;
    [|intros r IH|intros r IH|intros c0 r Hc Hcr IH]; intros p x Hp Hx.
  - destruct Hp as [<- | []]. destruct Hx.
  - rewrite split_lines_lf in Hp. destruct Hp as [<- | Hp]; [destruct Hx|].
    right. now apply (IH p).
  - rewrite split_lines_crlf in Hp. destruct Hp as [<- | Hp]; [destruct Hx|].
    right. right. now apply (IH p).
  - rewrite split_lines_keep, cons_head_shape in Hp by assumption.
    destruct Hp as [<- | Hp].
    + destruct Hx as [<- | Hx]; [now left|]. right.
      destruct (split_lines r) as [|h t] eqn:E; [destruct Hx|].
      apply (IH h); [now left | exact Hx].
    + right. apply (IH p); [|exact Hx].
      destruct (split_lines r) as [|h t]; [destruct Hp | now right].
Qed.

(** Every code unit of the input is a line feed, a carriage return, or
    a code unit of some piece. *)
Lemma split_lines_cover s :
  forall c, In c s ->
    c = LF \/ c = CR \/ exists p, In p (split_lines s) /\ In c p.
Proof.
  pattern s. apply split_lines_cases; clear s;
    [|intros r IH|intros r IH|intros c0 r Hc Hcr IH]; intros x Hx.
  - destruct Hx.
  - destruct Hx as [<- | Hx]; [now left|].
    destruct (IH x Hx) as [H | [H | (p & Hp & Hin)]]; [tauto | tauto |].
    right. right. exists p. split; [|exact Hin].
    rewrite split_lines_lf. now right.
  - destruct Hx as [<- | [<- | Hx]]; [tauto | tauto |].
    destruct (IH x Hx) as [H | [H | (p & Hp & Hin)]]; [tauto | tauto |].
    right. right. exists p. split; [|exact Hin].
    rewrite split_lines_crlf. now right.
  - rewrite split_lines_keep, cons_head_shape by assumption.
    destruct Hx as [<- | Hx].
    + right. right. exists (c0 :: hd [] (split_lines r)).
      split; now left.
    + destruct (IH x Hx) as [E | [E | (p & Hp & Hin)]]; [tauto | tauto |].
      right. right.
      destruct (split_lines r) as [|h t]; [destruct Hp|].
      destruct Hp as [<- | Hp].
      * exists (c0 :: h). split; [now left | now right].
      * exists p. split; [now right | exact Hin].
Qed.

Lemma join_empty sep x r : join sep (x :: r) = [] -> x = [].
Proof.
  destruct r as [|y r']; simpl; [tauto|].
  intros H. now apply app_eq_nil in H.
Qed.

Lemma kept_lines_empty_iff value :
  kept_lines value = [] <->
  forall p, In p (split_lines value) -> blank p = true.
Proof.
  rewrite kept_lines_nonblank. split.
  - intros H p Hp.
    destruct (blank p) eqn:E; [reflexivity|].
    assert (Hin : In p (List.filter (fun l => negb (blank l)) (split_lines value))).
    { apply filter_In. split; [exact Hp|]. now rewrite E. }
    destruct (List.filter (fun l => negb (blank l)) (split_lines value));
      [destruct Hin | discriminate].
  - intros H.
    induction (split_lines value) as [|p r IH]; [reflexivity|].
    simpl. rewrite (H p) by now left. simpl.
    apply IH. intros q Hq. apply H. now right.
Qed.

Lemma normalize_empty_iff_kept value :
  normalizeProtocolBlock value = [] <-> kept_lines value = [].
Proof.
  unfold normalizeProtocolBlock. fold (kept_lines value). split.
  - pose proof (kept_lines_clean value) as Hc.
    destruct (kept_lines value) as [|x r]; [reflexivity|].
    intros H. apply join_empty in H.
    inversion Hc as [|? ? (Hx & _) _]; subst. congruence.
  - now intros ->.
Qed.

(** A block keeps no line exactly when it is white space only. *)
Lemma kept_lines_empty_iff_blank (value : jsstring) :
  kept_lines value = [] <-> Forall (fun c => is_ws c = true) value.
Proof.
  rewrite kept_lines_empty_iff. split.
  - intros H. apply List.Forall_forall. intros c Hc.
    destruct (split_lines_cover value c Hc) as [-> | [-> | (p & Hp & Hin)]];
      [reflexivity | reflexivity |].
    specialize (H p Hp). unfold blank in H.
    rewrite forallb_forall in H. now apply H.
  - intros H p Hp. unfold blank. apply forallb_forall. intros c Hc.
    rewrite List.Forall_forall in H. apply H.
    now apply (split_lines_piece_In value p).
Qed.

Lemma normalize_blank_iff (value : jsstring) :
  normalizeProtocolBlock value = [] <-> Forall (fun c => is_ws c = true) value.
Proof. rewrite normalize_empty_iff_kept. apply kept_lines_empty_iff_blank. Qed.

(** X1: [normalizeProtocolBlock] gives the empty string exactly for the
    inputs made of white space only (line breaks included); any other
    input keeps at least one line, and the output is then not empty. *)
Theorem normalizeProtocolBlock_empty_iff_blank (value : jsstring) :
  (normalizeProtocolBlock value = [] <->
   Forall (fun c => is_ws c = true) value)
  /\ (kept_lines value = [] <-> Forall (fun c => is_ws c = true) value)
  /\ (forall c, In c value -> is_ws c = false ->
       normalizeProtocolBlock value <> [] /\ kept_lines value <> []).
Proof.
  split; [apply normalize_blank_iff|].
  split; [apply kept_lines_empty_iff_blank|].
  intros c Hc Hws. split; intros E.
  - apply normalize_blank_iff in E. rewrite List.Forall_forall in E.
    specialize (E c Hc). congruence.
  - apply kept_lines_empty_iff_blank in E. rewrite List.Forall_forall in E.
    specialize (E c Hc). congruence.
Qed.

End ProtocolBlocks.

(** ** Identity profile of an agent (the type both agent pages declare) *)

Module Identity.
Import JS.

Record IdentityProfile := {
  role : jsstring;
  communication_style : jsstring;
  emoji : jsstring;
  intake_checklist : jsstring;
  execution_protocol : jsstring;
  verification_commands : jsstring;
  escalation_triggers : jsstring;
  purpose : jsstring;
  personality : jsstring;
  custom_instructions : jsstring
}.

(** [Object.values(profile)], in the order the fields are written. *)
Definition values (p : IdentityProfile) : list jsstring :=
  [ role p; communication_style p; emoji p; intake_checklist p;
    execution_protocol p; verification_commands p; escalation_triggers p;
    purpose p; personality p; custom_instructions p ].

(** [value || null] on a string. *)
Definition or_null (v : jsstring) : option jsstring :=
  if truthy v then Some v else None.

(** [value || "literal"] on a string. *)
Definition or_default (v d : jsstring) : jsstring :=
  if truthy v then v else d.

End Identity.

(** ** New-agent page (src/unnamed/part_005) *)

Module NewAgentPage.
Import JS AgentProfile Identity.

Record BoardRead := {
  id : jsstring;
  name : jsstring
}.

Record SelectOption := {
  value : jsstring;
  label : jsstring
}.

(** [getBoardOptions] *)
Definition getBoardOptions (boards : list BoardRead) : list SelectOption :=
  List.map (fun board => {| value := id board; label := name board |}) boards.

Definition normalized (profile : IdentityProfile) : IdentityProfile :=
  {| role := trim (role profile);
     communication_style := trim (communication_style profile);
     emoji := trim (emoji profile);
     intake_checklist := normalizeProtocolBlock (intake_checklist profile);
     execution_protocol := normalizeProtocolBlock (execution_protocol profile);
     verification_commands := normalizeProtocolBlock (verification_commands profile);
     escalation_triggers := normalizeProtocolBlock (escalation_triggers profile);
     purpose := trim (purpose profile);
     personality := trim (personality profile);
     custom_instructions := trim (custom_instructions profile) |}.

(** [Object.values(normalized).some((value) => value.length > 0)] *)
Definition hasValue (p : IdentityProfile) : bool :=
  existsb (fun v => (0 <? length v)%nat) (values p).

(** [normalizeIdentityProfile]; [None] is [null]. *)
Definition normalizeIdentityProfile (profile : IdentityProfile)
    : option IdentityProfile :=
  if hasValue (normalized profile) then Some (normalized profile) else None.

(** The [useState] cells of the page the submit handler reads or writes. *)
Record State := {
  st_name : jsstring;
  boardId : jsstring;
  heartbeatEvery : jsstring;
  identityProfile : IdentityProfile;
  soulTemplate : jsstring;
  identityTemplate : jsstring;
  error : option jsstring
}.

Record HeartbeatConfig := {
  every : jsstring;
  target : jsstring;
  includeReasoning : bool
}.

(** The body [handleSubmit] hands to [createAgentMutation.mutate]. *)
Record AgentCreate := {
  c_name : jsstring;
  c_board_id : jsstring;
  c_heartbeat_config : HeartbeatConfig;
  c_identity_profile : option IdentityProfile;
  c_soul_template : option jsstring;
  c_identity_template : option jsstring
}.

(** [boards[0]?.id] *)
Definition first_board_id (boards : list BoardRead) : option jsstring :=
  match boards with
  | b :: _ => Some (id b)
  | [] => None
  end.

(** [boardId || boards[0]?.id || ""] *)
Definition displayBoardId (boardId : jsstring) (boards : list BoardRead)
    : jsstring :=
  GatewaySessionsPanel.lor_default
    (GatewaySessionsPanel.lor_opt (Some boardId) (first_board_id boards)) [].

Definition set_error (e : option jsstring) (st : State) : State :=
  {| st_name := st_name st; boardId := boardId st;
     heartbeatEvery := heartbeatEvery st;
     identityProfile := identityProfile st; soulTemplate := soulTemplate st;
     identityTemplate := identityTemplate st; error := e |}.

(** [handleSubmit]: the state after it, and the request when one is made. *)
Definition handleSubmit (isSignedIn : bool) (boards : list BoardRead)
    (st : State) : State * option AgentCreate :=
  if negb isSignedIn then (st, None)
  else
    let trimmed := trim (st_name st) in
    if negb (truthy trimmed) then
      (set_error (Some (lit "Agent name is required.")) st, None)
    else
      let resolvedBoardId := displayBoardId (boardId st) boards in
      if negb (truthy resolvedBoardId) then
        (set_error (Some (lit "Select a board before creating an agent.")) st,
         None)
      else
        (set_error None st,
         Some {| c_name := trimmed;
                 c_board_id := resolvedBoardId;
                 c_heartbeat_config :=
                   {| every := or_default (trim (heartbeatEvery st)) (lit "10m");
                      target := lit "last";
                      includeReasoning := false |};
                 c_identity_profile :=
                   normalizeIdentityProfile (identityProfile st);
                 c_soul_template := or_null (trim (soulTemplate st));
                 c_identity_template := or_null (trim (identityTemplate st)) |}).

(** A profile as a user may leave it: padded fields, blank lines. *)
Definition demo_profile : IdentityProfile :=
  {| role := lit "  Release manager ";
     communication_style := [];
     emoji := lit ":rocket:";
     intake_checklist := lit " read the ticket " ++ [13; 10; 10] ++ lit "ask once";
     execution_protocol := [32; 10; 9];
     verification_commands := [];
     escalation_triggers := [];
     purpose := [];
     personality := [];
     custom_instructions := [] |}.

Lemma length_pos_truthy (v : jsstring) : (0 <? length v)%nat = truthy v.
Proof. now destruct v. Qed.

Lemma hasValue_false_iff p :
  hasValue p = false <-> Forall (fun v => v = []) (values p).
Proof.
  unfold hasValue. split.
  - intros H. apply List.Forall_forall. intros v Hv.
    destruct v as [|c r]; [reflexivity|].
    assert (E : existsb (fun v => (0 <? length v)%nat) (values p) = true).
    { apply existsb_exists. exists (c :: r). split; [exact Hv | reflexivity]. }
    congruence.
  - intros H. rewrite List.Forall_forall in H.
    destruct (existsb (fun v => (0 <? length v)%nat) (values p)) eqn:E;
      [|reflexivity].
    apply existsb_exists in E. destruct E as (v & Hv & Hlen).
    rewrite (H v Hv) in Hlen. discriminate.
Qed.

Lemma normalized_idem p : normalized (normalized p) = normalized p.
Proof.
  unfold normalized. simpl.
  now rewrite !trim_idem, !normalizeProtocolBlock_idem.
Qed.

Lemma or_default_nonempty v d : d <> [] -> or_default v d <> [].
Proof.
  unfold or_default. destruct v; simpl; [tauto | discriminate].
Qed.

Lemma or_null_not_empty v : or_null v <> Some [].
Proof. unfold or_null. destruct v; simpl; congruence. Qed.

Lemma or_null_trim v t : or_null (trim v) = Some t -> trim t = t /\ t <> [].
Proof.
  unfold or_null. destruct (trim v) as [|c r] eqn:E; simpl; [discriminate|].
  intros [= <-]. split; [|discriminate]. rewrite <- E. apply trim_idem.
Qed.

Lemma displayBoardId_cases b boards :
  displayBoardId b boards =
    if truthy b then b
    else match boards with
         | first :: _ => id first
         | [] => []
         end.
Proof.
  unfold displayBoardId, GatewaySessionsPanel.lor_opt,
    GatewaySessionsPanel.lor_default, first_board_id. simpl.
  destruct b as [|c r]; simpl; [|reflexivity].
  destruct boards as [|first rest]; [reflexivity|].
  now destruct (id first).
Qed.

Lemma normalizeIdentityProfile_none_iff (profile : IdentityProfile) :
  normalizeIdentityProfile profile = None <->
  Forall (fun v => Forall (fun c => is_ws c = true) v) (values profile).
Proof.
  unfold normalizeIdentityProfile.
  destruct (hasValue (normalized profile)) eqn:E.
  - split; [discriminate|]. intros H. exfalso.
    assert (F : hasValue (normalized profile) = false); [|congruence].
    apply hasValue_false_iff. unfold values, normalized. simpl.
    unfold values in H.
    repeat (apply List.Forall_cons_iff in H; destruct H as [? H]).
    repeat constructor;
      first [ now apply trim_empty_iff_all_ws
            | now apply ProtocolBlocks.normalize_blank_iff ].
  - split; [intros _|reflexivity].
    apply hasValue_false_iff in E. unfold values, normalized in E. simpl in E.
    repeat (apply List.Forall_cons_iff in E; destruct E as [? E]).
    unfold values.
    repeat constructor;
      first [ now apply trim_empty_iff_all_ws
            | now apply ProtocolBlocks.normalize_blank_iff ].
Qed.

(** X2: [normalizeIdentityProfile] answers [null] exactly when every
    one of the ten fields is white space only (line breaks included);
    one visible character anywhere gives a profile, and that profile is
    the input with its six plain fields trimmed and its four protocol
    blocks normalised by [normalizeProtocolBlock], nothing else. *)
Theorem normalizeIdentityProfile_null_iff_blank (profile : IdentityProfile) :
  (normalizeIdentityProfile profile = None <->
   Forall (fun v => Forall (fun c => is_ws c = true) v) (values profile))
  /\ (forall q, normalizeIdentityProfile profile = Some q <->
        ~ Forall (fun v => Forall (fun c => is_ws c = true) v) (values profile)
        /\ q = {| role := trim (role profile);
                  communication_style := trim (communication_style profile);
                  emoji := trim (emoji profile);
                  intake_checklist :=
                    normalizeProtocolBlock (intake_checklist profile);
                  execution_protocol :=
                    normalizeProtocolBlock (execution_protocol profile);
                  verification_commands :=
                    normalizeProtocolBlock (verification_commands profile);
                  escalation_triggers :=
                    normalizeProtocolBlock (escalation_triggers profile);
                  purpose := trim (purpose profile);
                  personality := trim (personality profile);
                  custom_instructions := trim (custom_instructions profile) |})
  /\ (forall c v, In v (values profile) -> In c v -> is_ws c = false ->
        is_Some (normalizeIdentityProfile profile)).
Proof.
  pose proof (normalizeIdentityProfile_none_iff profile) as Hnone.
  split; [exact Hnone|]. split.
  - intros q. split.
    + intros Hq. split.
      * intros Hb. apply Hnone in Hb. congruence.
      * unfold normalizeIdentityProfile in Hq.
        destruct (hasValue (normalized profile)); [|discriminate].
        now injection Hq as <-.
    + intros (Hnb & ->).
      unfold normalizeIdentityProfile in *.
      destruct (hasValue (normalized profile)); [reflexivity|].
      exfalso. apply Hnb. now apply Hnone.
  - intros c v Hv Hc Hws.
    destruct (normalizeIdentityProfile profile) eqn:E; [now eexists|].
    exfalso. pose proof (proj1 Hnone eq_refl) as F. clear E.
    rename F into E. rewrite List.Forall_forall in E.
    specialize (E v Hv). rewrite List.Forall_forall in E.
    specialize (E c Hc). congruence.
Qed.

(** X3: [normalizeIdentityProfile] is idempotent: a profile it returned
    is returned unchanged when normalised again; its plain fields have no
    surrounding white space and its protocol blocks are already in normal
    form. *)
Theorem normalizeIdentityProfile_idempotent (profile q : IdentityProfile) :
  normalizeIdentityProfile profile = Some q ->
  normalizeIdentityProfile q = Some q
  /\ Forall (fun v => trim v = v)
       [role q; communication_style q; emoji q; purpose q; personality q;
        custom_instructions q]
  /\ Forall (fun v => normalizeProtocolBlock v = v)
       [intake_checklist q; execution_protocol q; verification_commands q;
        escalation_triggers q]
  /\ Exists (fun v => v <> []) (values q).
Proof.
  unfold normalizeIdentityProfile.
  destruct (hasValue (normalized profile)) eqn:E; [|discriminate].
  intros [= <-]. rewrite normalized_idem, E.
  split; [reflexivity|]. split.
  { unfold normalized. simpl. repeat constructor; apply trim_idem. }
  split.
  { unfold normalized. simpl.
    repeat constructor; apply normalizeProtocolBlock_idem. }
  unfold hasValue in E. apply existsb_exists in E.
  destruct E as (v & Hv & Hlen). apply List.Exists_exists.
  exists v. split; [exact Hv|]. intros ->. discriminate.
Qed.

Lemma normalizeIdentityProfile_idempotent_witness :
  normalizeIdentityProfile demo_profile = Some (normalized demo_profile)
  /\ normalizeIdentityProfile (normalized demo_profile)
     = Some (normalized demo_profile)
  /\ intake_checklist (normalized demo_profile)
     = lit "read the ticket" ++ [10] ++ lit "ask once".
Proof.
  assert (H : normalizeIdentityProfile demo_profile
              = Some (normalized demo_profile)) by (vm_compute; reflexivity).
  split; [exact H|].
  destruct (normalizeIdentityProfile_idempotent demo_profile
              (normalized demo_profile) H) as (Hi & _).
  split; [exact Hi|]. vm_compute. reflexivity.
Defined.

(** X4: the new-agent form sends a request exactly when the user is
    signed in, the name is not blank and a board is resolved (the chosen
    one, else the first board of the list).  The request then carries
    the trimmed, non-empty name, a non-empty board id, a heartbeat
    interval that is the trimmed input when that is not blank and [10m]
    otherwise (so never empty), target [last] without reasoning, the
    normalised identity profile, and as each template the trimmed text,
    or [null] when that is blank. *)
Theorem handleSubmit_request (isSignedIn : bool) (boards : list BoardRead)
    (st : State) :
  (is_Some (snd (handleSubmit isSignedIn boards st)) <->
     isSignedIn = true /\ trim (st_name st) <> [] /\
     displayBoardId (boardId st) boards <> [])
  /\ (forall req, snd (handleSubmit isSignedIn boards st) = Some req ->
      c_name req = trim (st_name st) /\ c_name req <> [] /\
      trim (c_name req) = c_name req /\
      c_board_id req <> [] /\
      (boardId st <> [] -> c_board_id req = boardId st) /\
      (boardId st = [] -> exists b rest, boards = b :: rest /\ c_board_id req = id b) /\
      every (c_heartbeat_config req) <> [] /\
      trim (every (c_heartbeat_config req)) = every (c_heartbeat_config req) /\
      (trim (heartbeatEvery st) = [] ->
         every (c_heartbeat_config req) = lit "10m") /\
      (trim (heartbeatEvery st) <> [] ->
         every (c_heartbeat_config req) = trim (heartbeatEvery st)) /\
      target (c_heartbeat_config req) = lit "last" /\
      includeReasoning (c_heartbeat_config req) = false /\
      c_identity_profile req = normalizeIdentityProfile (identityProfile st) /\
      c_soul_template req <> Some [] /\
      (forall t, c_soul_template req = Some t -> trim t = t) /\
      (trim (soulTemplate st) = [] -> c_soul_template req = None) /\
      (trim (soulTemplate st) <> [] ->
         c_soul_template req = Some (trim (soulTemplate st))) /\
      c_identity_template req <> Some [] /\
      (forall t, c_identity_template req = Some t -> trim t = t) /\
      (trim (identityTemplate st) = [] -> c_identity_template req = None) /\
      (trim (identityTemplate st) <> [] ->
         c_identity_template req = Some (trim (identityTemplate st)))).
Proof.
  unfold handleSubmit.
  destruct isSignedIn; simpl.
  2:{ split; [|discriminate]. split; [intros [x Hx]; discriminate|].
      intros (H & _). discriminate. }
  destruct (trim (st_name st)) as [|c r] eqn:En; simpl.
  { split; [|discriminate]. split; [intros [x Hx]; discriminate|].
    intros (_ & H & _). congruence. }
  destruct (displayBoardId (boardId st) boards) as [|d brest] eqn:Eb; simpl.
  { split; [|discriminate]. split; [intros [x Hx]; discriminate|].
    intros (_ & _ & H). congruence. }
  split.
  { split; [intros _; repeat split; discriminate | intros _; eexists; reflexivity]. }
  intros req [= <-]. simpl.
  rewrite displayBoardId_cases in Eb.
  split; [reflexivity|]. split; [discriminate|].
  split; [rewrite <- En; apply trim_idem|].
  split; [discriminate|].
  split.
  { intros Hb. destruct (boardId st); [congruence | exact (eq_sym Eb)]. }
  split.
  { intros Hb. rewrite Hb in Eb. simpl in Eb.
    destruct boards as [|b rest]; [discriminate|]. now exists b, rest. }
  split; [apply or_default_nonempty; discriminate|].
  split.
  { unfold or_default. destruct (trim (heartbeatEvery st)) eqn:Eh; simpl.
    - reflexivity.
    - rewrite <- Eh. apply trim_idem. }
  split; [now intros ->|].
  split.
  { unfold or_default. destruct (trim (heartbeatEvery st)); simpl;
      [congruence | reflexivity]. }
  split; [reflexivity|]. split; [reflexivity|]. split; [reflexivity|].
  split; [apply or_null_not_empty|].
  split; [intros t Ht; now apply (or_null_trim _ _ Ht)|].
  split; [now intros ->|].
  split.
  { unfold or_null. destruct (trim (soulTemplate st)); simpl;
      [congruence | reflexivity]. }
  split; [apply or_null_not_empty|].
  split; [intros t Ht; now apply (or_null_trim _ _ Ht)|].
  split; [now intros ->|].
  unfold or_null. destruct (trim (identityTemplate st)); simpl;
    [congruence | reflexivity].
Qed.

(** X5: the new-agent form never changes a field on submit, only the
    error: signed out it does nothing at all; a blank name is reported
    first, whatever the board; a missing board is reported next; and a
    submit that sends the request clears a stale error. *)
Theorem handleSubmit_errors (isSignedIn : bool) (boards : list BoardRead)
    (st : State) :
  let st' := fst (handleSubmit isSignedIn boards st) in
  st' = set_error (error st') st
  /\ (isSignedIn = false -> st' = st)
  /\ (isSignedIn = true -> trim (st_name st) = [] ->
      error st' = Some (lit "Agent name is required."))
  /\ (isSignedIn = true -> trim (st_name st) <> [] ->
      displayBoardId (boardId st) boards = [] ->
      error st' = Some (lit "Select a board before creating an agent."))
  /\ (is_Some (snd (handleSubmit isSignedIn boards st)) -> error st' = None)
  /\ (snd (handleSubmit isSignedIn boards st) = None -> isSignedIn = true ->
      is_Some (error st')).
Proof.
  cbn zeta. unfold handleSubmit.
  destruct isSignedIn; simpl.
  2:{ split; [now destruct st|]. split; [reflexivity|].
      repeat split; try discriminate. intros [x Hx]. discriminate. }
  destruct (trim (st_name st)) as [|c r] eqn:En; simpl.
  { split; [reflexivity|]. split; [discriminate|]. split; [reflexivity|].
    split; [congruence|]. split; [intros [x Hx]; discriminate|].
    intros _ _. eexists; reflexivity. }
  destruct (displayBoardId (boardId st) boards) as [|d brest] eqn:Eb; simpl.
  { split; [reflexivity|]. split; [discriminate|]. split; [discriminate|].
    split; [reflexivity|]. split; [intros [x Hx]; discriminate|].
    intros _ _. eexists; reflexivity. }
  split; [reflexivity|]. split; [discriminate|]. split; [discriminate|].
  split; [discriminate|]. split; [reflexivity|]. discriminate.
Qed.

End NewAgentPage.

(** ** Edit-agent page (src/unnamed/part_004) *)

Module EditAgentPage.
Import JS AgentProfile Identity.

(** A property value of type [unknown], as far as the page inspects
    one: a string, a boolean, or anything else (a number, [null], a
    nested object), which the page only copies. *)
Inductive JsValue :=
| JStr (s : jsstring)
| JBool (b : bool)
| JOther (tag : N).

(** A value of type [unknown] that the page tests with
    [v && typeof v === "object"]: an object, seen as its own enumerable
    properties (what a spread copies), or anything else. *)
Inductive JsUnknown :=
| JObject (props : gmap jsstring JsValue)
| JNotObject.

(** [v && typeof v === "object" ? { ...v } : {}] *)
Definition own_props (v : JsUnknown) : gmap jsstring JsValue :=
  match v with
  | JObject props => props
  | JNotObject => ∅
  end.

(** The [updates] object of [mergeIdentityProfile], as its entries. *)
Definition updates (patch : IdentityProfile) : list (jsstring * jsstring) :=
  [ (lit "role", trim (role patch));
    (lit "communication_style", trim (communication_style patch));
    (lit "emoji", trim (emoji patch));
    (lit "intake_checklist", normalizeProtocolBlock (intake_checklist patch));
    (lit "execution_protocol", normalizeProtocolBlock (execution_protocol patch));
    (lit "verification_commands",
       normalizeProtocolBlock (verification_commands patch));
    (lit "escalation_triggers",
       normalizeProtocolBlock (escalation_triggers patch));
    (lit "purpose", trim (purpose patch));
    (lit "personality", trim (personality patch));
    (lit "custom_instructions", trim (custom_instructions patch)) ].

Definition profile_keys : list jsstring :=
  [ lit "role"; lit "communication_style"; lit "emoji"; lit "intake_checklist";
    lit "execution_protocol"; lit "verification_commands";
    lit "escalation_triggers"; lit "purpose"; lit "personality";
    lit "custom_instructions" ].

(** The loop body: [if (value) resolved[key] = value; else delete resolved[key];] *)
Definition apply_update (resolved : gmap jsstring JsValue)
    (kv : jsstring * jsstring) : gmap jsstring JsValue :=
  if truthy (snd kv) then <[fst kv := JStr (snd kv)]> resolved
  else delete (fst kv) resolved.

(** The [resolved] object when the loop is over. *)
Definition merged (existing : JsUnknown) (patch : IdentityProfile)
    : gmap jsstring JsValue :=
  fold_left apply_update (updates patch) (own_props existing).

(** [mergeIdentityProfile]; [None] is [null]. *)
Definition mergeIdentityProfile (existing : JsUnknown) (patch : IdentityProfile)
    : option (gmap jsstring JsValue) :=
  let resolved := merged existing patch in
  if (0 <? size resolved)%nat then Some resolved else None.

(** What a key holds after an update with value [v]. *)
Definition entry (v : jsstring) : option JsValue :=
  if truthy v then Some (JStr v) else None.

(** The value the last update of key [k] carries, if there is one. *)
Fixpoint lookup_update (k : jsstring) (ups : list (jsstring * jsstring))
    : option jsstring :=
  match ups with
  | [] => None
  | (k', v) :: rest =>
      match lookup_update k rest with
      | Some w => Some w
      | None => if bool_decide (k' = k) then Some v else None
      end
  end.

(** [Partial<IdentityProfile>]: every field may be missing. *)
Record PartialProfile := {
  p_role : option jsstring;
  p_communication_style : option jsstring;
  p_emoji : option jsstring;
  p_intake_checklist : option jsstring;
  p_execution_protocol : option jsstring;
  p_verification_commands : option jsstring;
  p_escalation_triggers : option jsstring;
  p_purpose : option jsstring;
  p_personality : option jsstring;
  p_custom_instructions : option jsstring
}.

(** [typeof record.key === "string" ? record.key : undefined] *)
Definition str_prop (record : gmap jsstring JsValue) (k : jsstring)
    : option jsstring :=
  match record !! k with
  | Some (JStr s) => Some s
  | _ => None
  end.

(** [profile?.field ?? fallback] *)
Definition field_or (profile : option PartialProfile)
    (field : PartialProfile -> option jsstring) (fallback : jsstring) : jsstring :=
  match profile with
  | Some p => match field p with Some v => v | None => fallback end
  | None => fallback
  end.

(** The identity object a server stores for a merge result. *)
Definition as_unknown (r : option (gmap jsstring JsValue)) : JsUnknown :=
  match r with
  | Some m => JObject m
  | None => JNotObject
  end.

Section Defaults.

(** [DEFAULT_IDENTITY_PROFILE] of [@/lib/agent-templates], which is
    outside the sources. *)
Variable DEFAULT_IDENTITY_PROFILE : IdentityProfile.

(** [withIdentityDefaults] *)
Definition withIdentityDefaults (profile : option PartialProfile)
    : IdentityProfile :=
  {| role := field_or profile p_role (role DEFAULT_IDENTITY_PROFILE);
     communication_style :=
       field_or profile p_communication_style
         (communication_style DEFAULT_IDENTITY_PROFILE);
     emoji := field_or profile p_emoji (emoji DEFAULT_IDENTITY_PROFILE);
     intake_checklist := field_or profile p_intake_checklist [];
     execution_protocol := field_or profile p_execution_protocol [];
     verification_commands := field_or profile p_verification_commands [];
     escalation_triggers := field_or profile p_escalation_triggers [];
     purpose := field_or profile p_purpose (purpose DEFAULT_IDENTITY_PROFILE);
     personality :=
       field_or profile p_personality (personality DEFAULT_IDENTITY_PROFILE);
     custom_instructions :=
       field_or profile p_custom_instructions
         (custom_instructions DEFAULT_IDENTITY_PROFILE) |}.

(** The [loadedIdentityProfile] memo, from [loadedAgent?.identity_profile]. *)
Definition loadedIdentityProfile (identity : JsUnknown) : IdentityProfile :=
  match identity with
  | JObject record =>
      withIdentityDefaults
        (Some {| p_role := str_prop record (lit "role");
                 p_communication_style := str_prop record (lit "communication_style");
                 p_emoji := str_prop record (lit "emoji");
                 p_intake_checklist := str_prop record (lit "intake_checklist");
                 p_execution_protocol := str_prop record (lit "execution_protocol");
                 p_verification_commands :=
                   str_prop record (lit "verification_commands");
                 p_escalation_triggers := str_prop record (lit "escalation_triggers");
                 p_purpose := str_prop record (lit "purpose");
                 p_personality := str_prop record (lit "personality");
                 p_custom_instructions :=
                   str_prop record (lit "custom_instructions") |})
  | JNotObject => withIdentityDefaults None
  end.

End Defaults.

(** The fields of [AgentRead] the page reads.  [a_board_id] is [None]
    for [null] or a missing field; the templates are [Some] when they
    are strings. *)
Record AgentRead := {
  a_name : jsstring;
  a_board_id : option jsstring;
  a_is_gateway_main : option bool;
  a_heartbeat_config : JsUnknown;
  a_identity_profile : JsUnknown;
  a_soul_template : option jsstring;
  a_identity_template : option jsstring
}.

(** The [useState] cells of the page: [None] is the initial [undefined],
    a field the user has not touched. *)
Record State := {
  st_name : option jsstring;
  boardId : option jsstring;
  isGatewayMain : option bool;
  heartbeatEvery : option jsstring;
  identityProfile : option IdentityProfile;
  soulTemplate : option jsstring;
  identityTemplate : option jsstring;
  error : option jsstring
}.

(** The [AgentUpdate] body.  [u_board_id] is [None] when the key is left
    out, [Some None] when it is [null]; [u_is_gateway_main] is [None]
    when the key is left out. *)
Record AgentUpdate := {
  u_name : jsstring;
  u_heartbeat_config : gmap jsstring JsValue;
  u_identity_profile : option (gmap jsstring JsValue);
  u_soul_template : option jsstring;
  u_identity_template : option jsstring;
  u_board_id : option (option jsstring);
  u_is_gateway_main : option bool
}.

(** The argument of [updateMutation.mutate]. *)
Record UpdateRequest := {
  r_agentId : jsstring;
  r_force : bool;
  r_data : AgentUpdate
}.

(** [a ?? b] *)
Definition nullish {A} (a : option A) (b : A) : A :=
  match a with Some v => v | None => b end.

(** [Boolean(loadedAgent?.is_gateway_main)] *)
Definition loaded_is_main (loaded : option AgentRead) : bool :=
  match loaded with
  | Some a => nullish (a_is_gateway_main a) false
  | None => false
  end.

(** The [loadedHeartbeat] memo, its [every] field. *)
Definition loadedHeartbeat_every (loaded : option AgentRead) : jsstring :=
  match loaded with
  | Some a =>
      match a_heartbeat_config a with
      | JObject record =>
          match record !! lit "every" with
          | Some (JStr every) => if truthy (trim every) then every else lit "10m"
          | _ => lit "10m"
          end
      | JNotObject => lit "10m"
      end
  | None => lit "10m"
  end.

(** [name ?? loadedAgent?.name ?? ""] *)
Definition resolvedName (st : State) (loaded : option AgentRead) : jsstring :=
  nullish (st_name st) (match loaded with Some a => a_name a | None => [] end).

(** [isGatewayMain ?? Boolean(loadedAgent?.is_gateway_main)] *)
Definition resolvedIsGatewayMain (st : State) (loaded : option AgentRead) : bool :=
  nullish (isGatewayMain st) (loaded_is_main loaded).

Definition resolvedHeartbeatEvery (st : State) (loaded : option AgentRead)
    : jsstring :=
  nullish (heartbeatEvery st) (loadedHeartbeat_every loaded).

Definition resolvedSoulTemplate (st : State) (loaded : option AgentRead)
    : jsstring :=
  nullish (soulTemplate st)
    (match loaded with Some a => nullish (a_soul_template a) [] | None => [] end).

Definition resolvedIdentityTemplate (st : State) (loaded : option AgentRead)
    : jsstring :=
  nullish (identityTemplate st)
    (match loaded with Some a => nullish (a_identity_template a) [] | None => [] end).

(** The [resolvedBoardId] memo. *)
Definition resolvedBoardId (st : State) (loaded : option AgentRead)
    (boards : list NewAgentPage.BoardRead) : jsstring :=
  if resolvedIsGatewayMain st loaded then nullish (boardId st) []
  else
    match boardId st with
    | Some b => b
    | None =>
        match match loaded with Some a => a_board_id a | None => None end with
        | Some b => b
        | None => nullish (NewAgentPage.first_board_id boards) []
        end
    end.

Definition set_error (e : option jsstring) (st : State) : State :=
  {| st_name := st_name st; boardId := boardId st;
     isGatewayMain := isGatewayMain st; heartbeatEvery := heartbeatEvery st;
     identityProfile := identityProfile st; soulTemplate := soulTemplate st;
     identityTemplate := identityTemplate st; error := e |}.

(** [typeof existingHeartbeat.includeReasoning === "boolean" ? ... : false] *)
Definition include_reasoning (existingHeartbeat : gmap jsstring JsValue) : bool :=
  match existingHeartbeat !! lit "includeReasoning" with
  | Some (JBool b) => b
  | _ => false
  end.

(** [{ ...existingHeartbeat, every, target: "last", includeReasoning }] *)
Definition heartbeat_payload (existingHeartbeat : gmap jsstring JsValue)
    (every : jsstring) : gmap jsstring JsValue :=
  <[lit "includeReasoning" := JBool (include_reasoning existingHeartbeat)]>
    (<[lit "target" := JStr (lit "last")]>
       (<[lit "every" := JStr every]> existingHeartbeat)).

(** The two conditional assignments of [payload.board_id]. *)
Definition board_payload (main : bool) (board : jsstring)
    : option (option jsstring) :=
  if negb main then Some (or_null board)
  else if truthy board then Some (Some board)
  else None.

(** [handleSubmit] of the edit page: the state after it, and the request
    when one is made.  [defaults] is [DEFAULT_IDENTITY_PROFILE]. *)
Definition handleSubmit (defaults : IdentityProfile) (isSignedIn : bool)
    (agentId : option jsstring) (loaded : option AgentRead)
    (boards : list NewAgentPage.BoardRead) (st : State)
    : State * option UpdateRequest :=
  match agentId, loaded with
  | Some agent, Some loadedAgent =>
      if negb isSignedIn || negb (truthy agent) then (st, None)
      else
        let trimmed := trim (resolvedName st loaded) in
        let main := resolvedIsGatewayMain st loaded in
        let board := resolvedBoardId st loaded boards in
        if negb (truthy trimmed) then
          (set_error (Some (lit "Agent name is required.")) st, None)
        else if negb main && negb (truthy board) then
          (set_error
             (Some (lit "Select a board or mark this agent as the gateway main."))
             st, None)
        else if main && negb (truthy board)
                && negb (nullish (a_is_gateway_main loadedAgent) false)
                && negb (truthy_opt (a_board_id loadedAgent)) then
          (set_error
             (Some (lit "Select a board once so we can resolve the gateway main session key."))
             st, None)
        else
          (set_error None st,
           Some {| r_agentId := agent;
                   r_force := true;
                   r_data :=
                     {| u_name := trimmed;
                        u_heartbeat_config :=
                          heartbeat_payload
                            (own_props (a_heartbeat_config loadedAgent))
                            (or_default (trim (resolvedHeartbeatEvery st loaded))
                               (lit "10m"));
                        u_identity_profile :=
                          mergeIdentityProfile (a_identity_profile loadedAgent)
                            (nullish (identityProfile st)
                               (loadedIdentityProfile defaults
                                  (a_identity_profile loadedAgent)));
                        u_soul_template :=
                          or_null (trim (resolvedSoulTemplate st loaded));
                        u_identity_template :=
                          or_null (trim (resolvedIdentityTemplate st loaded));
                        u_board_id := board_payload main board;
                        u_is_gateway_main :=
                          if Bool.eqb (nullish (a_is_gateway_main loadedAgent) false)
                               main
                          then None else Some main |} |})
  | _, _ => (st, None)
  end.

(** An agent as loaded: a heartbeat with a padded interval and a key of
    its own, no board, not the gateway main. *)
Definition demo_agent : AgentRead :=
  {| a_name := lit "Deploy bot";
     a_board_id := None;
     a_is_gateway_main := None;
     a_heartbeat_config :=
       JObject (<[lit "every" := JStr (lit " 5m ")]>
                  (<[lit "quietHours" := JOther 1]> ∅));
     a_identity_profile := JNotObject;
     a_soul_template := None;
     a_identity_template := Some (lit "  ") |}.

Definition untouched : State :=
  {| st_name := None; boardId := None; isGatewayMain := None;
     heartbeatEvery := None; identityProfile := None; soulTemplate := None;
     identityTemplate := None; error := None |}.

Definition demo_boards : list NewAgentPage.BoardRead :=
  [ {| NewAgentPage.id := lit "b1"; NewAgentPage.name := lit "Demo Board" |} ].

Definition demo_defaults : IdentityProfile :=
  {| role := lit "Generalist"; communication_style := []; emoji := [];
     intake_checklist := []; execution_protocol := [];
     verification_commands := []; escalation_triggers := []; purpose := [];
     personality := []; custom_instructions := [] |}.

(** What saving the untouched form of [demo_agent] sends. *)
Definition demo_request : UpdateRequest :=
  {| r_agentId := lit "a1";
     r_force := true;
     r_data :=
       {| u_name := lit "Deploy bot";
          u_heartbeat_config :=
            <[lit "includeReasoning" := JBool false]>
              (<[lit "target" := JStr (lit "last")]>
                 (<[lit "every" := JStr (lit "5m")]>
                    (<[lit "quietHours" := JOther 1]> ∅)));
          u_identity_profile := Some (<[lit "role" := JStr (lit "Generalist")]> ∅);
          u_soul_template := None;
          u_identity_template := None;
          u_board_id := Some (Some (lit "b1"));
          u_is_gateway_main := None |} |}.

Ltac lit_neq :=
  let H := fresh "H" in intros H; vm_compute in H; discriminate H.

(** A stored profile with a stale role and a key the form does not know. *)
Definition demo_existing : JsUnknown :=
  JObject (<[lit "role" := JStr (lit "Intern")]>
             (<[lit "team" := JStr (lit "platform")]>
                (<[lit "level" := JOther 3]> ∅))).

Definition demo_patch : IdentityProfile :=
  {| role := lit "  "; communication_style := lit " terse ";
     emoji := []; intake_checklist := lit " a " ++ [10; 10] ++ lit "b";
     execution_protocol := []; verification_commands := [];
     escalation_triggers := []; purpose := []; personality := [];
     custom_instructions := [] |}.

Lemma apply_update_lookup m kv k :
  apply_update m kv !! k =
    if bool_decide (fst kv = k) then entry (snd kv) else m !! k.
Proof.
  unfold apply_update, entry. destruct kv as [k' v]. simpl.
  case_bool_decide as E.
  - subst k'. destruct (truthy v).
    + apply lookup_insert_eq.
    + apply lookup_delete_eq.
  - destruct (truthy v).
    + now apply lookup_insert_ne.
    + now apply lookup_delete_ne.
Qed.

(** After the loop a key holds what its last update gave, and a key
    without update holds what it held before. *)
Lemma fold_updates_lookup ups :
  forall m k,
    fold_left apply_update ups m !! k =
      match lookup_update k ups with
      | Some v => entry v
      | None => m !! k
      end.
Proof.
  induction ups as [|[k' v] rest IH]; intros m k; [reflexivity|].
  simpl. rewrite IH.
  destruct (lookup_update k rest); [reflexivity|].
  rewrite apply_update_lookup. simpl. now case_bool_decide.
Qed.

Lemma lookup_update_notin k ups :
  ~ In k (List.map fst ups) -> lookup_update k ups = None.
Proof.
  induction ups as [|[k' v] rest IH]; intros H; [reflexivity|].
  simpl in *. rewrite IH by tauto.
  case_bool_decide; [|reflexivity]. tauto.
Qed.

Lemma lookup_update_In k v ups :
  lookup_update k ups = Some v -> In (k, v) ups.
Proof.
  induction ups as [|[k' w] rest IH]; [discriminate|].
  simpl. destruct (lookup_update k rest) as [x|].
  - intros [= ->]. right. now apply IH.
  - case_bool_decide as E; [|discriminate]. intros [= ->]. subst. now left.
Qed.

Lemma updates_keys patch : List.map fst (updates patch) = profile_keys.
Proof. reflexivity. Qed.

Lemma updates_values patch :
  List.map snd (updates patch) = values (NewAgentPage.normalized patch).
Proof. reflexivity. Qed.

Lemma entry_none_iff v : entry v = None <-> v = [].
Proof. unfold entry. destruct v; simpl; split; congruence. Qed.

Lemma merged_lookup_field existing patch :
  Forall (fun kv => merged existing patch !! fst kv = entry (snd kv))
    (updates patch).
Proof.
  unfold merged, updates.
  repeat constructor; rewrite fold_updates_lookup; reflexivity.
Qed.

Lemma merged_lookup_other existing patch k :
  ~ In k profile_keys ->
  merged existing patch !! k = own_props existing !! k.
Proof.
  intros H. unfold merged. rewrite fold_updates_lookup.
  now rewrite lookup_update_notin by (rewrite updates_keys; exact H).
Qed.

Lemma merged_idem existing patch :
  merged (JObject (merged existing patch)) patch = merged existing patch.
Proof.
  apply map_eq. intros k. unfold merged at 1. rewrite fold_updates_lookup.
  cbn [own_props].
  destruct (lookup_update k (updates patch)) as [v|] eqn:E; [|reflexivity].
  unfold merged. rewrite fold_updates_lookup, E. reflexivity.
Qed.

Lemma merge_result existing patch :
  mergeIdentityProfile existing patch =
    if bool_decide (merged existing patch = ∅) then None
    else Some (merged existing patch).
Proof.
  unfold mergeIdentityProfile. cbn zeta.
  case_bool_decide as E.
  - rewrite E. reflexivity.
  - destruct (size (merged existing patch)) eqn:Es; [|reflexivity].
    apply map_size_empty_iff in Es. congruence.
Qed.

Lemma merged_empty_iff existing patch :
  merged existing patch = ∅ <->
  Forall (fun kv => snd kv = []) (updates patch) /\
  (forall k, ~ In k profile_keys -> own_props existing !! k = None).
Proof.
  split.
  - intros E. split.
    + pose proof (merged_lookup_field existing patch) as H.
      eapply List.Forall_impl; [|exact H]. simpl. intros kv Hkv.
      rewrite E, lookup_empty in Hkv. now apply entry_none_iff.
    + intros k Hk. rewrite <- (merged_lookup_other existing patch k Hk), E.
      apply lookup_empty.
  - intros [Hv Ho]. apply map_eq. intros k. rewrite lookup_empty.
    unfold merged. rewrite fold_updates_lookup.
    destruct (lookup_update k (updates patch)) as [v|] eqn:E.
    + apply lookup_update_In in E. rewrite List.Forall_forall in Hv.
      specialize (Hv _ E). simpl in Hv. now apply entry_none_iff.
    + apply Ho. intros Hin.
      assert (Hex : exists v, lookup_update k (updates patch) = Some v).
      { clear -Hin. unfold profile_keys in Hin. simpl in Hin.
        repeat (destruct Hin as [<- | Hin]; [eexists; reflexivity|]).
        destruct Hin. }
      destruct Hex as [v Hv']. congruence.
Qed.

Lemma merged_not_object_empty existing patch :
  merged existing patch = ∅ -> merged JNotObject patch = ∅.
Proof.
  intros E. apply merged_empty_iff in E. destruct E as [Hv _].
  apply merged_empty_iff. split; [exact Hv|].
  intros k _. apply lookup_empty.
Qed.

Lemma str_prop_merged existing patch :
  Forall (fun kv => str_prop (merged existing patch) (fst kv) = or_null (snd kv))
    (updates patch).
Proof.
  eapply List.Forall_impl; [|apply merged_lookup_field].
  intros [k v]. simpl. unfold str_prop, entry, or_null. intros ->.
  now destruct (truthy v).
Qed.

Lemma normalize_null_iff_updates patch :
  NewAgentPage.normalizeIdentityProfile patch = None <->
  Forall (fun kv => snd kv = []) (updates patch).
Proof.
  unfold NewAgentPage.normalizeIdentityProfile.
  destruct (NewAgentPage.hasValue (NewAgentPage.normalized patch)) eqn:E.
  - split; [discriminate|]. intros H. exfalso.
    assert (F : NewAgentPage.hasValue (NewAgentPage.normalized patch) = false);
      [|congruence].
    apply NewAgentPage.hasValue_false_iff. rewrite <- updates_values.
    apply List.Forall_map. exact H.
  - split; [intros _|reflexivity].
    apply NewAgentPage.hasValue_false_iff in E.
    rewrite <- updates_values in E. now apply List.Forall_map in E.
Qed.

Example mergeIdentityProfile_demo :
  mergeIdentityProfile demo_existing demo_patch =
    Some (<[lit "communication_style" := JStr (lit "terse")]>
            (<[lit "intake_checklist" := JStr (lit "a" ++ [10] ++ lit "b")]>
               (<[lit "team" := JStr (lit "platform")]>
                  (<[lit "level" := JOther 3]> ∅)))).
Proof. vm_compute. reflexivity. Qed.

(** X6: what [mergeIdentityProfile] leaves in the profile object.  Each
    of the ten form fields ends up holding its normalised value as a
    string when that value is not empty, and is absent otherwise,
    whatever the stored object held under that key (a stale value is
    removed, not kept).  Every other key of the stored object is carried
    over untouched.  The result is [null] exactly when no key is left. *)
Theorem mergeIdentityProfile_fields (existing : JsUnknown)
    (patch : IdentityProfile) :
  Forall (fun kv =>
            merged existing patch !! fst kv =
              if truthy (snd kv) then Some (JStr (snd kv)) else None)
    (updates patch)
  /\ (forall k, ~ In k profile_keys ->
        merged existing patch !! k = own_props existing !! k)
  /\ (mergeIdentityProfile existing patch = None <->
        merged existing patch = ∅)
  /\ (forall m, mergeIdentityProfile existing patch = Some m ->
        m = merged existing patch /\ m <> ∅).
Proof.
  split; [apply merged_lookup_field|].
  split; [apply merged_lookup_other|].
  rewrite merge_result. case_bool_decide as E.
  - split; [tauto | discriminate].
  - split; [split; [discriminate | congruence]|].
    intros m [= <-]. now split.
Qed.

(** X7: merging the same form values into the object a merge produced
    (or into nothing, when it produced [null]) gives the same result:
    saving twice without editing changes nothing. *)
Theorem mergeIdentityProfile_idempotent (existing : JsUnknown)
    (patch : IdentityProfile) :
  mergeIdentityProfile (as_unknown (mergeIdentityProfile existing patch)) patch
  = mergeIdentityProfile existing patch.
Proof.
  rewrite (merge_result existing patch). case_bool_decide as E.
  - simpl. rewrite merge_result.
    now rewrite (merged_not_object_empty existing patch E), bool_decide_eq_true_2.
  - simpl. rewrite merge_result, merged_idem. now rewrite bool_decide_eq_false_2.
Qed.

(** X8: the edit page and the new-agent page agree on what an empty
    profile is: [mergeIdentityProfile] answers [null] exactly when
    [normalizeIdentityProfile] does for the same form values and the
    stored object holds no key beside the ten form fields; in
    particular, with nothing stored, the two are [null] together. *)
Theorem mergeIdentityProfile_null_iff (existing : JsUnknown)
    (patch : IdentityProfile) :
  (mergeIdentityProfile existing patch = None <->
     NewAgentPage.normalizeIdentityProfile patch = None /\
     forall k, ~ In k profile_keys -> own_props existing !! k = None)
  /\ (mergeIdentityProfile JNotObject patch = None <->
     NewAgentPage.normalizeIdentityProfile patch = None).
Proof.
  assert (Hgen : forall e,
            mergeIdentityProfile e patch = None <->
            NewAgentPage.normalizeIdentityProfile patch = None /\
            forall k, ~ In k profile_keys -> own_props e !! k = None).
  { intros e. rewrite normalize_null_iff_updates, <- merged_empty_iff.
    rewrite merge_result. case_bool_decide as E.
    - tauto.
    - split; [discriminate | congruence]. }
  assert (Hnot : mergeIdentityProfile JNotObject patch = None <->
                 NewAgentPage.normalizeIdentityProfile patch = None).
  { rewrite Hgen. split; [tauto|]. intros H. split; [exact H|].
    intros k _. apply lookup_empty. }
  split; [apply Hgen | exact Hnot].
Qed.

Lemma or_default_or_null v d :
  match or_null v with Some w => w | None => d end = or_default v d.
Proof. unfold or_null, or_default. now destruct (truthy v). Qed.

Lemma or_default_nil v : or_default v [] = v.
Proof. unfold or_default. now destruct v. Qed.

(** X9: saving and loading again.  Loading the object that
    [mergeIdentityProfile] produced gives, whatever was stored before:
    for the four protocol blocks, the normalised block; for the six
    plain fields, the trimmed value, or the default of that field when
    the trimmed value is empty.  So a plain field that is cleared comes
    back as its default, while a cleared protocol block stays empty. *)
Theorem loadedIdentityProfile_after_merge (defaults : IdentityProfile)
    (existing : JsUnknown) (patch : IdentityProfile) :
  loadedIdentityProfile defaults
    (as_unknown (mergeIdentityProfile existing patch))
  = {| role := or_default (trim (role patch)) (role defaults);
       communication_style :=
         or_default (trim (communication_style patch))
           (communication_style defaults);
       emoji := or_default (trim (emoji patch)) (emoji defaults);
       intake_checklist := normalizeProtocolBlock (intake_checklist patch);
       execution_protocol := normalizeProtocolBlock (execution_protocol patch);
       verification_commands :=
         normalizeProtocolBlock (verification_commands patch);
       escalation_triggers := normalizeProtocolBlock (escalation_triggers patch);
       purpose := or_default (trim (purpose patch)) (purpose defaults);
       personality := or_default (trim (personality patch)) (personality defaults);
       custom_instructions :=
         or_default (trim (custom_instructions patch))
           (custom_instructions defaults) |}.
Proof.
  rewrite merge_result. case_bool_decide as E.
  - apply merged_empty_iff in E. destruct E as [Hv _].
    unfold updates in Hv.
    repeat (apply List.Forall_cons_iff in Hv; destruct Hv as [? Hv]).
    simpl in *.
    repeat match goal with H : _ = [] |- _ => rewrite H; clear H end.
    reflexivity.
  - pose proof (str_prop_merged existing patch) as Hs.
    unfold updates in Hs.
    repeat (apply List.Forall_cons_iff in Hs; destruct Hs as [? Hs]).
    cbn [fst snd] in *.
    unfold as_unknown, loadedIdentityProfile, withIdentityDefaults, field_or.
    cbn [p_role p_communication_style p_emoji p_intake_checklist
         p_execution_protocol p_verification_commands p_escalation_triggers
         p_purpose p_personality p_custom_instructions].
    repeat match goal with
           | H : str_prop _ _ = _ |- _ => rewrite H; clear H
           end.
    now rewrite !or_default_or_null, !or_default_nil.
Qed.

Lemma heartbeat_payload_every hb e :
  heartbeat_payload hb e !! lit "every" = Some (JStr e).
Proof.
  unfold heartbeat_payload.
  rewrite lookup_insert_ne by lit_neq.
  rewrite lookup_insert_ne by lit_neq.
  apply lookup_insert_eq.
Qed.

Lemma heartbeat_payload_target hb e :
  heartbeat_payload hb e !! lit "target" = Some (JStr (lit "last")).
Proof.
  unfold heartbeat_payload.
  rewrite lookup_insert_ne by lit_neq.
  apply lookup_insert_eq.
Qed.

Lemma heartbeat_payload_other hb e k :
  k <> lit "every" -> k <> lit "target" -> k <> lit "includeReasoning" ->
  heartbeat_payload hb e !! k = hb !! k.
Proof.
  intros H1 H2 H3. unfold heartbeat_payload.
  now rewrite !lookup_insert_ne by congruence.
Qed.

Lemma board_payload_not_empty main board :
  board_payload main board <> Some (Some []).
Proof.
  unfold board_payload, or_null. destruct main, board; simpl; congruence.
Qed.

Lemma or_default_trimmed v :
  trim (or_default (trim v) (lit "10m")) = or_default (trim v) (lit "10m").
Proof.
  unfold or_default. destruct (trim v) eqn:E; simpl; [reflexivity|].
  rewrite <- E. apply trim_idem.
Qed.

(** X10: what the edit form sends.  A request carries the trimmed,
    non-empty name and [force: true].  Its heartbeat keeps every key of
    the stored heartbeat except [every], [target] and
    [includeReasoning]: [every] is a non-empty trimmed string, [target]
    is [last], [includeReasoning] is a boolean (the stored one when it
    is a boolean).  [board_id] is never the empty string: for an agent
    that is not the gateway main it is always a non-empty id, for the
    gateway main it is an id or left out, never [null].
    [is_gateway_main] is sent only when it differs from the stored
    flag.  The templates are [null] or non-empty. *)
Theorem edit_handleSubmit_payload (defaults : IdentityProfile)
    (isSignedIn : bool) (agentId : option jsstring) (loaded : option AgentRead)
    (boards : list NewAgentPage.BoardRead) (st : State) (req : UpdateRequest) :
  snd (handleSubmit defaults isSignedIn agentId loaded boards st) = Some req ->
  exists loadedAgent,
    loaded = Some loadedAgent /\ agentId = Some (r_agentId req) /\
    r_agentId req <> [] /\ r_force req = true /\
    u_name (r_data req) = trim (resolvedName st loaded) /\
    u_name (r_data req) <> [] /\
    (exists e, u_heartbeat_config (r_data req) !! lit "every" = Some (JStr e) /\
               e <> [] /\ trim e = e) /\
    u_heartbeat_config (r_data req) !! lit "target" = Some (JStr (lit "last")) /\
    (exists b, u_heartbeat_config (r_data req) !! lit "includeReasoning"
               = Some (JBool b)) /\
    (forall k, k <> lit "every" -> k <> lit "target" ->
               k <> lit "includeReasoning" ->
       u_heartbeat_config (r_data req) !! k =
       own_props (a_heartbeat_config loadedAgent) !! k) /\
    u_board_id (r_data req) <> Some (Some []) /\
    (resolvedIsGatewayMain st loaded = false ->
       u_board_id (r_data req) = Some (Some (resolvedBoardId st loaded boards)) /\
       resolvedBoardId st loaded boards <> []) /\
    (resolvedIsGatewayMain st loaded = true ->
       u_board_id (r_data req) <> Some None) /\
    (u_is_gateway_main (r_data req) = None <->
       resolvedIsGatewayMain st loaded = loaded_is_main loaded) /\
    (forall b, u_is_gateway_main (r_data req) = Some b ->
       b = resolvedIsGatewayMain st loaded) /\
    u_identity_profile (r_data req) =
      mergeIdentityProfile (a_identity_profile loadedAgent)
        (nullish (identityProfile st)
           (loadedIdentityProfile defaults (a_identity_profile loadedAgent))) /\
    u_soul_template (r_data req) <> Some [] /\
    u_identity_template (r_data req) <> Some [].
Proof.
  unfold handleSubmit.
  destruct agentId as [agent|], loaded as [loadedAgent|]; try discriminate.
  destruct isSignedIn; simpl; [|discriminate].
  destruct agent as [|a0 agent']; simpl; [discriminate|].
  set (loaded := Some loadedAgent).
  destruct (trim (resolvedName st loaded)) as [|c r] eqn:En; simpl;
    [discriminate|].
  destruct (resolvedIsGatewayMain st loaded) eqn:Em;
    destruct (resolvedBoardId st loaded boards) as [|d brest] eqn:Eb; simpl;
    try discriminate.
  - (* gateway main, no board chosen *)
    destruct (negb (nullish (a_is_gateway_main loadedAgent) false)
              && negb (truthy_opt (a_board_id loadedAgent))) eqn:Eg; simpl;
      [discriminate|].
    intros [= <-]. exists loadedAgent. simpl.
    repeat split; try discriminate; try reflexivity.
    + eexists. split; [apply heartbeat_payload_every|].
      split; [apply NewAgentPage.or_default_nonempty; discriminate|].
      apply or_default_trimmed.
    + apply heartbeat_payload_target.
    + eexists. unfold heartbeat_payload. apply lookup_insert_eq.
    + intros k H1 H2 H3. now apply heartbeat_payload_other.
    + destruct (nullish (a_is_gateway_main loadedAgent) false); simpl;
        [reflexivity | discriminate].
    + destruct (nullish (a_is_gateway_main loadedAgent) false); simpl;
        [reflexivity | discriminate].
    + intros b. destruct (nullish (a_is_gateway_main loadedAgent) false);
        simpl; [discriminate | now intros [= <-]].
    + apply NewAgentPage.or_null_not_empty.
    + apply NewAgentPage.or_null_not_empty.
  - (* gateway main, a board chosen *)
    intros [= <-]. exists loadedAgent. simpl.
    repeat split; try discriminate; try reflexivity.
    + eexists. split; [apply heartbeat_payload_every|].
      split; [apply NewAgentPage.or_default_nonempty; discriminate|].
      apply or_default_trimmed.
    + apply heartbeat_payload_target.
    + eexists. unfold heartbeat_payload. apply lookup_insert_eq.
    + intros k H1 H2 H3. now apply heartbeat_payload_other.
    + destruct (nullish (a_is_gateway_main loadedAgent) false); simpl;
        [reflexivity | discriminate].
    + destruct (nullish (a_is_gateway_main loadedAgent) false); simpl;
        [reflexivity | discriminate].
    + intros b. destruct (nullish (a_is_gateway_main loadedAgent) false);
        simpl; [discriminate | now intros [= <-]].
    + apply NewAgentPage.or_null_not_empty.
    + apply NewAgentPage.or_null_not_empty.
  - (* not the gateway main, a board resolved *)
    intros [= <-]. exists loadedAgent. simpl.
    repeat split; try discriminate; try reflexivity.
    + eexists. split; [apply heartbeat_payload_every|].
      split; [apply NewAgentPage.or_default_nonempty; discriminate|].
      apply or_default_trimmed.
    + apply heartbeat_payload_target.
    + eexists. unfold heartbeat_payload. apply lookup_insert_eq.
    + intros k H1 H2 H3. now apply heartbeat_payload_other.
    + destruct (nullish (a_is_gateway_main loadedAgent) false); simpl;
        [discriminate | reflexivity].
    + destruct (nullish (a_is_gateway_main loadedAgent) false); simpl;
        [discriminate | reflexivity].
    + intros b. destruct (nullish (a_is_gateway_main loadedAgent) false);
        simpl; [now intros [= <-] | discriminate].
    + apply NewAgentPage.or_null_not_empty.
    + apply NewAgentPage.or_null_not_empty.
Qed.

Lemma edit_handleSubmit_payload_witness :
  snd (handleSubmit demo_defaults true (Some (lit "a1")) (Some demo_agent)
         demo_boards untouched) = Some demo_request
  /\ u_board_id (r_data demo_request) = Some (Some (lit "b1"))
  /\ u_heartbeat_config (r_data demo_request) !! lit "quietHours"
     = Some (JOther 1).
Proof.
  assert (H : snd (handleSubmit demo_defaults true (Some (lit "a1"))
                     (Some demo_agent) demo_boards untouched)
              = Some demo_request) by (vm_compute; reflexivity).
  split; [exact H|].
  destruct (edit_handleSubmit_payload demo_defaults true (Some (lit "a1"))
              (Some demo_agent) demo_boards untouched demo_request H)
    as (la & Hla & _ & _ & _ & _ & _ & _ & _ & _ & Hkeep & _ & Hboard & _).
  injection Hla as <-.
  split.
  - destruct Hboard as [Hb _]; [reflexivity|]. rewrite Hb. reflexivity.
  - rewrite Hkeep by lit_neq. vm_compute. reflexivity.
Defined.

(** X11: when the edit form sends.  A request is made exactly when the
    user is signed in, the agent id is known, the agent is loaded, the
    name is not blank, and a board is resolved, or else the agent is
    saved as gateway main and was already the gateway main or already
    had a board.  Submitting never changes a form field, only the error;
    without sign-in, agent id or loaded agent it changes nothing; a
    request clears the error, and a refused submit sets one. *)
Theorem edit_handleSubmit_validation (defaults : IdentityProfile)
    (isSignedIn : bool) (agentId : option jsstring) (loaded : option AgentRead)
    (boards : list NewAgentPage.BoardRead) (st : State) :
  let out := handleSubmit defaults isSignedIn agentId loaded boards st in
  (is_Some (snd out) <->
     isSignedIn = true /\ truthy_opt agentId = true /\ is_Some loaded /\
     trim (resolvedName st loaded) <> [] /\
     (resolvedBoardId st loaded boards = [] ->
        resolvedIsGatewayMain st loaded = true /\
        (loaded_is_main loaded = true \/
         truthy_opt (match loaded with Some a => a_board_id a | None => None end)
           = true)))
  /\ fst out = set_error (error (fst out)) st
  /\ (isSignedIn = false \/ truthy_opt agentId = false \/ loaded = None ->
      out = (st, None))
  /\ (is_Some (snd out) -> error (fst out) = None)
  /\ (isSignedIn = true -> truthy_opt agentId = true -> is_Some loaded ->
      snd out = None -> is_Some (error (fst out))).
Proof.
  cbn zeta. unfold handleSubmit.
  assert (Hst : st = set_error (error st) st) by now destruct st.
  destruct agentId as [agent|], loaded as [loadedAgent|]; simpl;
    try (split; [split; [intros [x Hx]; discriminate
                        | intros (_ & H1 & [x H2] & _); discriminate]|];
         split; [exact Hst|]; split; [reflexivity|];
         split; [intros [x Hx]; discriminate|];
         intros _ H1 [x H2]; discriminate).
  destruct isSignedIn; simpl.
  2:{ split; [split; [intros [x Hx]; discriminate | intros (H & _); discriminate]|].
      split; [exact Hst|]. split; [reflexivity|].
      split; [intros [x Hx]; discriminate | discriminate]. }
  destruct agent as [|a0 agent']; simpl.
  { split; [split; [intros [x Hx]; discriminate
                   | intros (_ & H & _); discriminate]|].
    split; [exact Hst|]. split; [reflexivity|].
    split; [intros [x Hx]; discriminate | discriminate]. }
  set (loaded := Some loadedAgent).
  destruct (trim (resolvedName st loaded)) as [|c r] eqn:En; simpl.
  { split; [split; [intros [x Hx]; discriminate
                   | intros (_ & _ & _ & H & _); congruence]|].
    split; [reflexivity|].
    split; [intros [H | [H | H]]; discriminate|].
    split; [intros [x Hx]; discriminate|]. intros. eexists; reflexivity. }
  destruct (resolvedIsGatewayMain st loaded) eqn:Em;
    destruct (resolvedBoardId st loaded boards) as [|d brest] eqn:Eb; simpl.
  - destruct (nullish (a_is_gateway_main loadedAgent) false) eqn:Ei; simpl.
    + split.
      { split; [|intros _; eexists; reflexivity].
        intros _. split; [reflexivity|]. split; [reflexivity|].
        split; [eexists; reflexivity|]. split; [discriminate|].
        intros _. split; [reflexivity | left; first [reflexivity | exact Ei]]. }
      split; [reflexivity|].
      split; [intros [H | [H | H]]; discriminate|].
      split; [reflexivity | discriminate].
    + destruct (truthy_opt (a_board_id loadedAgent)) eqn:Eo; simpl.
      * split.
        { split; [|intros _; eexists; reflexivity].
          intros _. split; [reflexivity|]. split; [reflexivity|].
          split; [eexists; reflexivity|]. split; [discriminate|].
          intros _. split; [reflexivity | right; first [reflexivity | exact Eo]]. }
        split; [reflexivity|].
        split; [intros [H | [H | H]]; discriminate|].
        split; [reflexivity | discriminate].
      * split.
        { split; [intros [x Hx]; discriminate|].
          intros (_ & _ & _ & _ & H).
          destruct (H eq_refl) as [_ [H' | H']].
          - first [ discriminate H'
                  | change (nullish (a_is_gateway_main loadedAgent) false = true)
                      in H'; congruence ].
          - first [ discriminate H'
                  | change (truthy_opt (a_board_id loadedAgent) = true) in H';
                    congruence ]. }
        split; [reflexivity|].
        split; [intros [H | [H | H]]; discriminate|].
        split; [intros [x Hx]; discriminate|]. intros. eexists; reflexivity.
  - split.
    { split; [|intros _; eexists; reflexivity].
      intros _. split; [reflexivity|]. split; [reflexivity|].
      split; [eexists; reflexivity|]. split; [discriminate|].
      intros H. discriminate H. }
    split; [reflexivity|].
    split; [intros [H | [H | H]]; discriminate|].
    split; [reflexivity | discriminate].
  - split.
    { split; [intros [x Hx]; discriminate|].
      intros (_ & _ & _ & _ & H). destruct (H eq_refl) as [H' _].
      discriminate. }
    split; [reflexivity|].
    split; [intros [H | [H | H]]; discriminate|].
    split; [intros [x Hx]; discriminate|]. intros. eexists; reflexivity.
  - split.
    { split; [|intros _; eexists; reflexivity].
      intros _. split; [reflexivity|]. split; [reflexivity|].
      split; [eexists; reflexivity|]. split; [discriminate|].
      intros H. discriminate H. }
    split; [reflexivity|].
    split; [intros [H | [H | H]]; discriminate|].
    split; [reflexivity | discriminate].
Qed.


End EditAgentPage.

(** ** Gateway sessions panel: listing and dialogs (GatewaySessionsPanel.tsx) *)

Module SessionsPanelView.
Import JS GatewaySessionsPanel.

Record ApiError := { message : jsstring }.

(** The response body of the sessions listing. *)
Record SessionsResponse := {
  resp_status : Z;
  resp_sessions : option (list SessionInfo);
  resp_main_session : option SessionInfo
}.

(** What the panel reads of [sessionsQuery]. *)
Record SessionsQuery := {
  isLoading : bool;
  error : option ApiError;
  data : option SessionsResponse
}.

(** The [sessions] memo. *)
Definition sessions (q : SessionsQuery) : list SessionInfo :=
  match data q with
  | Some r =>
      if (resp_status r =? 200)%Z
      then match resp_sessions r with Some l => l | None => [] end
      else []
  | None => []
  end.

(** The [mainSession] memo. *)
Definition mainSession (q : SessionsQuery) : option SessionInfo :=
  match data q with
  | Some r => if (resp_status r =? 200)%Z then resp_main_session r else None
  | None => None
  end.

(** The two [useState] cells: the session whose dialog is open. *)
Record PanelState := {
  historySessionId : option jsstring;
  messageSessionId : option jsstring
}.

Definition closed : PanelState :=
  {| historySessionId := None; messageSessionId := None |}.

Inductive PanelEvent :=
| ClickHistory (session : SessionInfo)
| ClickMessage (session : SessionInfo)
| HistoryOpenChange (open : bool)
| MessageOpenChange (open : bool).

Definition step (st : PanelState) (ev : PanelEvent) : PanelState :=
  match ev with
  | ClickHistory s =>
      {| historySessionId := Some (getSessionId s);
         messageSessionId := messageSessionId st |}
  | ClickMessage s =>
      {| historySessionId := historySessionId st;
         messageSessionId := Some (getSessionId s) |}
  | HistoryOpenChange open =>
      if negb open
      then {| historySessionId := None; messageSessionId := messageSessionId st |}
      else st
  | MessageOpenChange open =>
      if negb open
      then {| historySessionId := historySessionId st; messageSessionId := None |}
      else st
  end.

(** [id ? <Dialog sessionId={id} open={!!id} /> : null]: the props of the
    dialog when it is rendered. *)
Definition dialog_props (cell : option jsstring) : option (jsstring * bool) :=
  match cell with
  | Some sid => if truthy sid then Some (sid, truthy sid) else None
  | None => None
  end.

(** One session card: the key and id shown, the title, the status badge
    and the formatted last activity. *)
Record Card := {
  card_id : jsstring;
  card_title : jsstring;
  card_status : jsstring;
  card_last_activity : option jsstring
}.

Inductive Body :=
| LoadingBox
| ErrorBox (text : jsstring)
| EmptyBox
| Listing (main : option Card) (rows : list Card).

Section Panel.

(** [formatTimestamp] of [@/lib/formatters], which is outside the sources. *)
Variable formatTimestamp : jsstring -> jsstring.

Definition last_activity_shown (s : SessionInfo) : option jsstring :=
  match last_activity s with
  | Some t => if truthy t then Some (formatTimestamp t) else None
  | None => None
  end.

(** The card of the main session. *)
Definition main_card (s : SessionInfo) : Card :=
  {| card_id := getSessionId s;
     card_title := lit "Main session";
     card_status := lor_default (status s) (lit "active");
     card_last_activity := last_activity_shown s |}.

(** The card of a listed session; the title shows the first eight code
    units of the agent id. *)
Definition session_card (s : SessionInfo) : Card :=
  {| card_id := getSessionId s;
     card_title :=
       match agent_id s with
       | Some a =>
           if truthy a then lit "Agent: " ++ firstn 8 a ++ lit "..."
           else lit "Session"
       | None => lit "Session"
       end;
     card_status := lor_default (status s) (lit "active");
     card_last_activity := last_activity_shown s |}.

Definition body (q : SessionsQuery) : Body :=
  if isLoading q then LoadingBox
  else match error q with
       | Some e => ErrorBox (message e)
       | None =>
           match sessions q, mainSession q with
           | [], None => EmptyBox
           | l, m => Listing (option_map main_card m) (List.map session_card l)
           end
       end.

Lemma lor_default_nonempty o d : d <> [] -> lor_default o d <> [].
Proof.
  unfold lor_default. intros Hd. destruct o as [[|c r]|]; simpl;
    congruence.
Qed.

Lemma session_card_ok s :
  card_id (session_card s) = getSessionId s /\
  card_id (session_card s) <> [] /\ card_status (session_card s) <> [].
Proof.
  split; [reflexivity|]. split; [apply getSessionId_nonempty|].
  apply lor_default_nonempty. discriminate.
Qed.

End Panel.

Lemma dialog_props_getSessionId s :
  dialog_props (Some (getSessionId s)) = Some (getSessionId s, true).
Proof.
  unfold dialog_props. pose proof (getSessionId_nonempty s) as H.
  destruct (getSessionId s); [congruence | reflexivity].
Qed.

(** X12: the History and Message buttons of any session, main or
    listed, always open the dialog of that session: the dialog is
    rendered, open, with the resolved session id (["unknown"] when the
    payload carries none), and the other dialog is left as it is.
    Closing a dialog clears only that dialog; an open request changes
    nothing. *)
Theorem session_buttons_open_dialog (st : PanelState) (s : SessionInfo) :
  dialog_props (historySessionId (step st (ClickHistory s)))
    = Some (getSessionId s, true)
  /\ messageSessionId (step st (ClickHistory s)) = messageSessionId st
  /\ dialog_props (messageSessionId (step st (ClickMessage s)))
    = Some (getSessionId s, true)
  /\ historySessionId (step st (ClickMessage s)) = historySessionId st
  /\ dialog_props (historySessionId (step st (HistoryOpenChange false))) = None
  /\ messageSessionId (step st (HistoryOpenChange false)) = messageSessionId st
  /\ dialog_props (messageSessionId (step st (MessageOpenChange false))) = None
  /\ historySessionId (step st (MessageOpenChange false)) = historySessionId st
  /\ step st (HistoryOpenChange true) = st
  /\ step st (MessageOpenChange true) = st
  /\ (truthy_opt (session_id s) = false -> truthy_opt (id s) = false ->
      dialog_props (historySessionId (step st (ClickHistory s)))
        = Some (lit "unknown", true)).
Proof.
  split; [apply dialog_props_getSessionId|]. split; [reflexivity|].
  split; [apply dialog_props_getSessionId|]. split; [reflexivity|].
  split; [reflexivity|]. split; [reflexivity|].
  split; [reflexivity|]. split; [reflexivity|].
  split; [reflexivity|]. split; [reflexivity|].
  intros Hs Hi. cbn [step historySessionId].
  rewrite dialog_props_getSessionId, (getSessionId_fallback s Hs).
  unfold lor_default. destruct (id s) as [[|c r]|]; simpl in *;
    reflexivity || discriminate.
Qed.

Lemma body_listing formatTimestamp q :
  isLoading q = false -> error q = None ->
  sessions q <> [] \/ mainSession q <> None ->
  body formatTimestamp q
  = Listing (option_map (main_card formatTimestamp) (mainSession q))
            (List.map (session_card formatTimestamp) (sessions q)).
Proof.
  intros Hl He Hne. unfold body. rewrite Hl, He.
  destruct (sessions q) as [|s l], (mainSession q) as [m|]; simpl;
    try reflexivity.
  destruct Hne; congruence.
Qed.

(** X13: what the panel lists.  While the query loads the panel shows
    the loading box; a failed query shows the message of the error; the
    empty state is shown exactly when the query is neither loading nor
    failed and the response holds no session and no main session (a
    response whose status is not 200 counts as holding none).  In every
    other case the panel shows the listing: the card of the main session
    when there is one, and one card per session of the response, in the
    order of the response.  A card shows the resolved session id, the
    status of the session or [active] when it has none (so never an empty
    badge), and the formatted last activity when the session has one;
    a listed session is titled by the first eight code units of its
    agent id, or [Session] without one. *)
Theorem sessions_panel_body (formatTimestamp : jsstring -> jsstring)
    (q : SessionsQuery) :
  (body formatTimestamp q = EmptyBox <->
     isLoading q = false /\ error q = None /\ sessions q = [] /\
     mainSession q = None)
  /\ (forall r, data q = Some r -> resp_status r <> 200%Z ->
        sessions q = [] /\ mainSession q = None)
  /\ (forall m rows, body formatTimestamp q = Listing m rows ->
        List.map card_id rows = List.map getSessionId (sessions q) /\
        Forall (fun c => card_id c <> [] /\ card_status c <> []) rows /\
        m = option_map (main_card formatTimestamp) (mainSession q) /\
        (rows <> [] \/ m <> None))
  /\ (isLoading q = true -> body formatTimestamp q = LoadingBox)
  /\ (forall e, isLoading q = false -> error q = Some e ->
        body formatTimestamp q = ErrorBox (message e))
  /\ (isLoading q = false -> error q = None ->
      sessions q <> [] \/ mainSession q <> None ->
      exists m rows,
        body formatTimestamp q = Listing m rows
        /\ length rows = length (sessions q)
        /\ (forall i s, sessions q !! i = Some s ->
             rows !! i =
               Some {| card_id := getSessionId s;
                       card_title :=
                         match agent_id s with
                         | Some a =>
                             if truthy a
                             then lit "Agent: " ++ firstn 8 a ++ lit "..."
                             else lit "Session"
                         | None => lit "Session"
                         end;
                       card_status :=
                         match status s with
                         | Some t => if truthy t then t else lit "active"
                         | None => lit "active"
                         end;
                       card_last_activity :=
                         match last_activity s with
                         | Some t =>
                             if truthy t then Some (formatTimestamp t) else None
                         | None => None
                         end |})
        /\ (mainSession q = None -> m = None)
        /\ (forall s, mainSession q = Some s ->
             m = Some {| card_id := getSessionId s;
                         card_title := lit "Main session";
                         card_status :=
                           match status s with
                           | Some t => if truthy t then t else lit "active"
                           | None => lit "active"
                           end;
                         card_last_activity :=
                           match last_activity s with
                           | Some t =>
                               if truthy t then Some (formatTimestamp t)
                               else None
                           | None => None
                           end |})).
Proof.
  split.
  { unfold body. destruct (isLoading q).
    - split; [discriminate | intros (H & _); discriminate].
    - destruct (error q) as [e|].
      + split; [discriminate | intros (_ & H & _); discriminate].
      + destruct (sessions q) as [|s l], (mainSession q) as [m|]; simpl;
          split; try discriminate; try tauto;
          intros (_ & _ & H1 & H2); discriminate. }
  split.
  { intros r Hr Hs. unfold sessions, mainSession. rewrite Hr.
    apply Z.eqb_neq in Hs. now rewrite Hs. }
  split.
  { intros m rows. unfold body.
    destruct (isLoading q); [discriminate|].
    destruct (error q) as [e|]; [discriminate|].
    assert (Hmap : forall l,
              List.map card_id (List.map (session_card formatTimestamp) l)
              = List.map getSessionId l).
    { intros l. rewrite List.map_map. reflexivity. }
    assert (Hall : forall l,
              Forall (fun c => card_id c <> [] /\ card_status c <> [])
                (List.map (session_card formatTimestamp) l)).
    { intros l. apply List.Forall_forall. intros c Hc.
      apply in_map_iff in Hc. destruct Hc as (s & <- & _).
      destruct (session_card_ok formatTimestamp s) as (_ & H1 & H2).
      now split. }
    destruct (sessions q) as [|s l] eqn:Es, (mainSession q) as [ms|] eqn:Em;
      simpl; try discriminate; intros [= <- <-].
    - split; [reflexivity|]. split; [constructor|]. split; [reflexivity|].
      right. discriminate.
    - split; [apply (Hmap (s :: l))|]. split; [apply (Hall (s :: l))|].
      split; [reflexivity|]. left. discriminate.
    - split; [apply (Hmap (s :: l))|]. split; [apply (Hall (s :: l))|].
      split; [reflexivity|]. left. discriminate. }
  split.
  { intros Hl. unfold body. now rewrite Hl. }
  split.
  { intros e Hl He. unfold body. now rewrite Hl, He. }
  intros Hl He Hne.
  exists (option_map (main_card formatTimestamp) (mainSession q)),
         (List.map (session_card formatTimestamp) (sessions q)).
  split; [now apply body_listing|].
  split; [apply length_map|].
  split.
  { intros i s Hi.
    change (List.map (session_card formatTimestamp) (sessions q))
      with (session_card formatTimestamp <$> sessions q).
    rewrite list_lookup_fmap, Hi. reflexivity. }
  split; [now intros ->|].
  intros s ->. reflexivity.
Qed.

End SessionsPanelView.

(** ** Send-message dialog: the whole dialog (SendMessageDialog.tsx) *)

Module SendMessageFlow.
Import JS SendMessageDialog.

(** What can happen to the dialog.  The text area and the Send button
    are rendered only while [success] is false. *)
Inductive Event :=
| Typed (v : jsstring)
| ClickSend
| OnSuccess
| OnError (err_message : jsstring)
| Close.

(** [err.message || "Failed to send message."] *)
Definition error_message (m : jsstring) : jsstring :=
  if truthy m then m else lit "Failed to send message.".

Definition step (sid : jsstring) (st : State) (ev : Event)
    : State * option MutateArgs :=
  match ev with
  | Typed v => if success st then (st, None) else (setContent v st, None)
  | ClickSend => if success st then (st, None) else handleSend sid st
  | OnSuccess =>
      ({| content := content st; success := true; error := None |}, None)
  | OnError m =>
      ({| content := content st; success := false;
          error := Some (error_message m) |}, None)
  | Close => ({| content := []; success := false; error := None |}, None)
  end.

Definition run (sid : jsstring) (st : State) (evs : list Event) : State :=
  fold_left (fun s ev => fst (step sid s ev)) evs st.

(** The success panel and the error banner. *)
Definition success_panel (st : State) : bool := success st.
Definition error_banner (st : State) : option jsstring :=
  if truthy_opt (error st) then error st else None.

(** The success state carries no error. *)
Definition consistent (st : State) : Prop :=
  success st = true -> error st = None.

Lemma step_consistent sid st ev :
  consistent st -> consistent (fst (step sid st ev)).
Proof.
  unfold consistent. intros H. destruct ev; simpl.
  - destruct (success st) eqn:E; simpl.
    + intros _. now apply H.
    + intros Hs. congruence.
  - destruct (success st) eqn:E; simpl.
    + intros _. now apply H.
    + unfold handleSend.
      destruct (negb (truthy (trim (content st)))); simpl.
      * intros Hs. congruence.
      * reflexivity.
  - reflexivity.
  - discriminate.
  - reflexivity.
Qed.

Lemma run_consistent sid evs :
  forall st, consistent st -> consistent (run sid st evs).
Proof.
  induction evs as [|ev evs IH]; intros st H; [exact H|].
  simpl. apply IH. now apply step_consistent.
Qed.

(** X14: the send-message dialog as a whole.  In every state it can
    reach, the success panel and the error banner are never shown
    together.  A request is handed to the client only by the Send
    button, only while no success is shown, and always with the session
    id of the dialog and a non-empty, trimmed content.  A failed send
    shows a non-empty message; closing the dialog resets it to its
    initial, empty state. *)
Theorem send_dialog_flow (sid : jsstring) :
  (forall evs, let st := run sid initial evs in
     success_panel st = true -> error_banner st = None)
  /\ (forall st ev, consistent st -> consistent (fst (step sid st ev)))
  /\ (forall st ev req, snd (step sid st ev) = Some req ->
        ev = ClickSend /\ success st = false /\
        sessionId req = sid /\ data_content req = trim (content st) /\
        data_content req <> [] /\ trim (data_content req) = data_content req)
  /\ (forall st m,
        error_banner (fst (step sid st (OnError m))) = Some (error_message m) /\
        error_message m <> [] /\
        success_panel (fst (step sid st (OnError m))) = false)
  /\ (forall st, fst (step sid st Close) = initial).
Proof.
  split.
  { intros evs st Hs. unfold error_banner, success_panel in *.
    assert (Hc : consistent st)
      by (apply run_consistent; unfold consistent; discriminate).
    now rewrite (Hc Hs). }
  split; [apply step_consistent|].
  split.
  { intros st ev req. destruct ev; simpl;
      try discriminate; try (destruct (success st); discriminate).
    destruct (success st) eqn:Es; simpl; [discriminate|].
    unfold handleSend.
    destruct (trim (content st)) as [|c r] eqn:E; simpl; [discriminate|].
    intros [= <-]. simpl. repeat split; try discriminate.
    rewrite <- E. apply trim_idem. }
  split.
  { intros st m. unfold error_banner, success_panel, error_message. simpl.
    destruct m as [|c r]; simpl; repeat split; discriminate. }
  reflexivity.
Qed.

End SendMessageFlow.

(** ** Session history dialog: what each state of the query shows *)

Module HistoryRows.
Import JS SessionHistoryDialog.

Lemma row_keys formatTimestamp (h : list HistoryEvent) :
  List.map key (imap (render_row formatTimestamp) h) = seq 0 (length h).
Proof.
  apply list_eq. intros i.
  change (List.map key (imap (render_row formatTimestamp) h))
    with (key <$> imap (render_row formatTimestamp) h).
  rewrite list_lookup_fmap, list_lookup_imap.
  destruct (h !! i) as [e|] eqn:E; simpl.
  - symmetry. apply lookup_seq_lt. now apply lookup_lt_Some in E.
  - symmetry. apply lookup_seq_ge. now apply lookup_ge_None in E.
Qed.

(** X15: the body of the history dialog, state by state.  Loading wins
    over everything, then the error; a response without events, or with
    a status other than 200, shows the empty state; otherwise there is
    exactly one row per event, in the order of the response, and the
    keys of the rows are 0, 1, 2, ... (so no two rows share a key). *)
Theorem history_dialog_body (formatTimestamp : jsstring -> jsstring)
    (q : QueryState) :
  match body formatTimestamp q with
  | Loading => isLoading q = true
  | ErrorBox t =>
      isLoading q = false /\ exists e, error q = Some e /\ t = message e
  | EmptyState t =>
      isLoading q = false /\ error q = None /\ history q = [] /\
      t = lit "No history events found."
  | Rows rows =>
      isLoading q = false /\ error q = None /\ history q <> [] /\
      rows = imap (render_row formatTimestamp) (history q) /\
      length rows = length (history q) /\
      List.map key rows = seq 0 (length (history q)) /\
      NoDup (List.map key rows)
  end
  /\ (forall r, data q = Some r -> status r <> 200%Z -> history q = []).
Proof.
  split.
  - unfold body. destruct (isLoading q); [reflexivity|].
    destruct (error q) as [e|]; [split; [reflexivity | now exists e]|].
    destruct (history q) as [|ev h] eqn:E.
    + simpl. repeat split.
    + change (length (ev :: h) =? 0)%nat with false. cbn iota.
      split; [reflexivity|]. split; [reflexivity|]. split; [discriminate|].
      split; [reflexivity|].
      split; [apply length_imap|].
      split; [apply row_keys|].
      rewrite row_keys. apply NoDup_seq.
  - intros r Hr Hs. unfold history. rewrite Hr.
    apply Z.eqb_neq in Hs. now rewrite Hs.
Qed.

End HistoryRows.

(** ** Template sync dialog: the board filter (TemplateSyncDialog.tsx) *)

Module TemplateSyncForm.
Import JS TemplateSyncDialog.

(** The [boardOptions] memo: "All boards" first, then one option per board. *)
Definition boardOptions (boards : list NewAgentPage.BoardRead)
    : list NewAgentPage.SelectOption :=
  {| NewAgentPage.value := []; NewAgentPage.label := lit "All boards" |}
  :: List.map (fun board =>
                 {| NewAgentPage.value := NewAgentPage.id board;
                    NewAgentPage.label := NewAgentPage.name board |}) boards.

(** Picking an option of the select ([onValueChange={setBoardId}]), then
    pressing Sync: the request that goes out. *)
Definition sync_with_option (st : State) (opt : NewAgentPage.SelectOption)
    : option SyncParams :=
  snd (step (fst (step st (SetBoardId (NewAgentPage.value opt)))) HandleSync).

(** X16: the board filter of a sync.  The select always offers "All
    boards" first, with the empty value, then the boards in order.
    Syncing after picking an option sends [board_id: null] for an empty
    value (so for "All boards") and the value itself otherwise; the six
    check boxes go out as they stand, and the pick changes none of them;
    it also clears any earlier result and error. *)
Theorem sync_board_filter (st : State) (boards : list NewAgentPage.BoardRead)
    (opt : NewAgentPage.SelectOption) :
  hd_error (boardOptions boards)
    = Some {| NewAgentPage.value := []; NewAgentPage.label := lit "All boards" |}
  /\ List.map NewAgentPage.value (tl (boardOptions boards))
     = List.map NewAgentPage.id boards
  /\ length (boardOptions boards) = S (length boards)
  /\ exists p,
       sync_with_option st opt = Some p /\
       (NewAgentPage.value opt = [] -> board_id p = None) /\
       (NewAgentPage.value opt <> [] ->
          board_id p = Some (NewAgentPage.value opt)) /\
       include_main p = includeMain st /\ lead_only p = leadOnly st /\
       reset_sessions p = resetSessions st /\
       rotate_tokens p = rotateTokens st /\
       force_bootstrap p = forceBootstrap st /\ p_overwrite p = overwrite st.
Proof.
  split; [reflexivity|]. split.
  { simpl. now rewrite List.map_map. }
  split; [simpl; now rewrite length_map|].
  unfold sync_with_option. simpl. eexists. split; [reflexivity|].
  unfold params_of, board_param. simpl.
  destruct (NewAgentPage.value opt); simpl; repeat split; congruence.
Qed.

End TemplateSyncForm.

(** ** Soul selector dialog (SoulSelectorDialog, src/docs/reference/api.md) *)

Module SoulSelectorDialog.
Import JS.

Record SoulRef := {
  handle : jsstring;
  slug : jsstring
}.

(** The response of the markdown query: a status and [data.content]. *)
Record MarkdownResponse := {
  status : Z;
  content : option jsstring
}.

(** The [useState] cells of the dialog. *)
Record State := {
  searchQuery : jsstring;
  selectedSoul : option SoulRef
}.

Definition initial : State := {| searchQuery := []; selectedSoul := None |}.

(** The calls the dialog makes on its props. *)
Inductive Effect :=
| OnSelect (text : jsstring)
| OnOpenChange (open : bool).

(** [handleClose] *)
Definition handleClose (st : State) : State * list Effect :=
  ({| searchQuery := []; selectedSoul := None |}, [OnOpenChange false]).

(** [handleConfirm], given [markdownQuery.data]. *)
Definition handleConfirm (data : option MarkdownResponse) (st : State)
    : State * list Effect :=
  match data with
  | Some r =>
      if (status r =? 200)%Z then
        let text := match content r with Some c => c | None => [] end in
        let (st', effects) := handleClose st in
        (st', OnSelect text :: effects)
      else (st, [])
  | None => (st, [])
  end.

(** [handleApply] *)
Definition handleApply (soul : SoulRef) (st : State) : State :=
  {| searchQuery := searchQuery st; selectedSoul := Some soul |}.

(** The new-agent page passes [onSelect={(content) => setSoulTemplate(content)}]. *)
Definition deliver (page : NewAgentPage.State) (e : Effect) : NewAgentPage.State :=
  match e with
  | OnSelect text =>
      {| NewAgentPage.st_name := NewAgentPage.st_name page;
         NewAgentPage.boardId := NewAgentPage.boardId page;
         NewAgentPage.heartbeatEvery := NewAgentPage.heartbeatEvery page;
         NewAgentPage.identityProfile := NewAgentPage.identityProfile page;
         NewAgentPage.soulTemplate := text;
         NewAgentPage.identityTemplate := NewAgentPage.identityTemplate page;
         NewAgentPage.error := NewAgentPage.error page |}
  | OnOpenChange _ => page
  end.

(** An import into a form that already holds a template. *)
Definition demo_response : MarkdownResponse :=
  {| status := 200; content := Some (lit "  # Soul" ++ [10]) |}.

Definition demo_page : NewAgentPage.State :=
  {| NewAgentPage.st_name := lit " Scout ";
     NewAgentPage.boardId := lit "b1";
     NewAgentPage.heartbeatEvery := [];
     NewAgentPage.identityProfile := NewAgentPage.demo_profile;
     NewAgentPage.soulTemplate := lit "old template";
     NewAgentPage.identityTemplate := [];
     NewAgentPage.error := None |}.

Definition demo_create : NewAgentPage.AgentCreate :=
  {| NewAgentPage.c_name := lit "Scout";
     NewAgentPage.c_board_id := lit "b1";
     NewAgentPage.c_heartbeat_config :=
       {| NewAgentPage.every := lit "10m"; NewAgentPage.target := lit "last";
          NewAgentPage.includeReasoning := false |};
     NewAgentPage.c_identity_profile :=
       Some (NewAgentPage.normalized NewAgentPage.demo_profile);
     NewAgentPage.c_soul_template := Some (lit "# Soul");
     NewAgentPage.c_identity_template := None |}.

(** X17: importing a soul.  Confirm does something only when the
    markdown response is there with status 200: it then hands the
    content to [onSelect] exactly once (the empty string when the
    response has no content), closes the dialog and resets search and
    selection.  In every other case Confirm changes nothing and calls
    nothing.  Cancel closes and resets without calling [onSelect]. *)
Theorem soul_import_confirm (data : option MarkdownResponse) (st : State) :
  (forall r, data = Some r -> status r = 200%Z ->
     handleConfirm data st =
       (initial,
        [OnSelect (match content r with Some c => c | None => [] end);
         OnOpenChange false]))
  /\ ((data = None \/ exists r, data = Some r /\ status r <> 200%Z) ->
      handleConfirm data st = (st, []))
  /\ (forall text, In (OnSelect text) (snd (handleConfirm data st)) ->
      exists r, data = Some r /\ status r = 200%Z /\
                text = match content r with Some c => c | None => [] end /\
                fst (handleConfirm data st) = initial /\
                In (OnOpenChange false) (snd (handleConfirm data st)))
  /\ handleClose st = (initial, [OnOpenChange false])
  /\ (forall soul, selectedSoul (fst (handleClose (handleApply soul st))) = None).
Proof.
  split.
  { intros r -> Hs. unfold handleConfirm. rewrite Hs. reflexivity. }
  split.
  { intros [-> | (r & -> & Hs)]; [reflexivity|].
    unfold handleConfirm. apply Z.eqb_neq in Hs. now rewrite Hs. }
  split; [|split; reflexivity].
  intros text. unfold handleConfirm. destruct data as [r|]; [|intros []].
  destruct (Z.eqb_spec (status r) 200) as [Hs|Hs]; [|intros []].
  simpl. intros [[= <-] | [H | []]]; [|discriminate].
  exists r. repeat split; try assumption. right. now left.
Qed.

(** X18: from the soul selector to the request.  After a soul is
    imported into the new-agent form and the form is submitted, the
    request carries the imported content trimmed, or [null] when the
    imported content is missing or white space only: whatever template
    text was in the form before is replaced.  The import touches nothing
    else: the form keeps its name, board, heartbeat interval, identity
    profile, identity template and error, the form would have been sent
    without the import too, and every other field of the request is the
    one the form would have sent without it. *)
Theorem soul_import_then_submit (r : MarkdownResponse) (dialog : State)
    (page : NewAgentPage.State) (boards : list NewAgentPage.BoardRead)
    (req : NewAgentPage.AgentCreate) :
  status r = 200%Z ->
  snd (NewAgentPage.handleSubmit true boards
         (fold_left deliver (snd (handleConfirm (Some r) dialog)) page))
    = Some req ->
  NewAgentPage.c_soul_template req =
    Identity.or_null (trim (match content r with Some c => c | None => [] end))
  /\ (content r = None -> NewAgentPage.c_soul_template req = None)
  /\ (forall c, content r = Some c -> Forall (fun x => is_ws x = true) c ->
      NewAgentPage.c_soul_template req = None)
  /\ NewAgentPage.c_name req = trim (NewAgentPage.st_name page)
  /\ NewAgentPage.c_identity_template req =
       Identity.or_null (trim (NewAgentPage.identityTemplate page))
  /\ (forall c, content r = Some c -> trim c <> [] ->
      NewAgentPage.c_soul_template req = Some (trim c))
  /\ NewAgentPage.c_board_id req =
       NewAgentPage.displayBoardId (NewAgentPage.boardId page) boards
  /\ NewAgentPage.c_heartbeat_config req =
       {| NewAgentPage.every :=
            match trim (NewAgentPage.heartbeatEvery page) with
            | [] => lit "10m"
            | c :: rest => c :: rest
            end;
          NewAgentPage.target := lit "last";
          NewAgentPage.includeReasoning := false |}
  /\ NewAgentPage.c_identity_profile req =
       NewAgentPage.normalizeIdentityProfile (NewAgentPage.identityProfile page)
  /\ fold_left deliver (snd (handleConfirm (Some r) dialog)) page =
       {| NewAgentPage.st_name := NewAgentPage.st_name page;
          NewAgentPage.boardId := NewAgentPage.boardId page;
          NewAgentPage.heartbeatEvery := NewAgentPage.heartbeatEvery page;
          NewAgentPage.identityProfile := NewAgentPage.identityProfile page;
          NewAgentPage.soulTemplate :=
            match content r with Some c => c | None => [] end;
          NewAgentPage.identityTemplate := NewAgentPage.identityTemplate page;
          NewAgentPage.error := NewAgentPage.error page |}
  /\ (exists req0,
        snd (NewAgentPage.handleSubmit true boards page) = Some req0
        /\ NewAgentPage.c_soul_template req0 =
             Identity.or_null (trim (NewAgentPage.soulTemplate page))
        /\ NewAgentPage.c_name req = NewAgentPage.c_name req0
        /\ NewAgentPage.c_board_id req = NewAgentPage.c_board_id req0
        /\ NewAgentPage.c_heartbeat_config req
           = NewAgentPage.c_heartbeat_config req0
        /\ NewAgentPage.c_identity_profile req
           = NewAgentPage.c_identity_profile req0
        /\ NewAgentPage.c_identity_template req
           = NewAgentPage.c_identity_template req0).
Proof.
  intros Hs. unfold handleConfirm. rewrite Hs. simpl.
  unfold NewAgentPage.handleSubmit. simpl.
  destruct (trim (NewAgentPage.st_name page)) as [|c0 n] eqn:En; simpl;
    [discriminate|].
  destruct (NewAgentPage.displayBoardId (NewAgentPage.boardId page) boards)
    as [|d b]; simpl; [discriminate|].
  intros [= <-]. simpl.
  split; [reflexivity|]. split; [now intros ->|].
  split.
  { intros c -> Hc. apply trim_empty_iff_all_ws in Hc. now rewrite Hc. }
  split; [reflexivity|]. split; [reflexivity|].
  split.
  { intros c -> Hc. unfold Identity.or_null.
    destruct (trim c); [congruence | reflexivity]. }
  split; [reflexivity|].
  split.
  { unfold Identity.or_default.
    now destruct (trim (NewAgentPage.heartbeatEvery page)). }
  split; [reflexivity|]. split; [reflexivity|].
  eexists. split; [reflexivity|]. simpl. repeat split.
Qed.

Lemma soul_import_then_submit_witness :
  snd (NewAgentPage.handleSubmit true []
         (fold_left deliver (snd (handleConfirm (Some demo_response) initial))
            demo_page))
    = Some demo_create
  /\ NewAgentPage.c_soul_template demo_create = Some (lit "# Soul").
Proof.
  assert (H : snd (NewAgentPage.handleSubmit true []
                     (fold_left deliver
                        (snd (handleConfirm (Some demo_response) initial))
                        demo_page))
              = Some demo_create) by (vm_compute; reflexivity).
  split; [exact H|].
  destruct (soul_import_then_submit demo_response initial demo_page []
              demo_create eq_refl H) as (Hsoul & _).
  rewrite Hsoul. vm_compute. reflexivity.
Defined.

End SoulSelectorDialog.
